(** * PowerDNS provider: initialisation and capability declaration

    A shallow embedding of [providers/powerdns/powerdnsProvider.go]:
    the package variable [features], the registration hook [init] and
    the constructor [newDSP], followed by the properties of the
    provider contract that the code establishes.

    Go strings are byte sequences; they are modelled by [string], whose
    elements are 8-bit [ascii] values.  A Go [map[string]string] is a
    [gmap string string].  A function returning [(value, error)] returns
    a pair whose second component is [option error] ([None] is [nil]). *)

From stdpp Require Import base option list strings gmap.
From Stdlib Require Import ZArith Ascii.

Local Open Scope string_scope.
Local Open Scope Z_scope.
Local Open Scope list_scope.

(** ** Errors *)

(** The [error] values that can leave [newDSP]: those it builds itself
    with [fmt.Errorf], the [*strconv.NumError] of [strconv.ParseBool],
    the [*json.UnmarshalTypeError] of [encoding/json], and errors built
    inside a collaborating library, kept as the library produced them. *)
Inductive error : Type :=
| Errorf (msg : string)
| NumError (Func Num : string)
| UnmarshalTypeError (Value Field : string)
| LibError (pkg msg : string).

#[global] Instance error_eq_dec : EqDecision error.
Proof. solve_decision. Defined.

(** ** JSON documents *)

(** The document tree that [encoding/json] walks once the scanner has
    accepted the bytes.  Object members keep their order and their
    duplicates, as the decoder visits them one after another. *)
#[warnings="-register-all"]
Inductive json_value : Type :=
| JNull
| JBool (b : bool)
| JNumber (lit : string)
| JString (s : string)
| JArray (elems : list json_value)
| JObject (members : list (string * json_value)).

(** The [Value] that a [json.UnmarshalTypeError] reports for a document. *)
Definition json_kind (v : json_value) : string :=
  match v with
  | JNull => "null"
  | JBool _ => "bool"
  | JNumber _ => "number"
  | JString _ => "string"
  | JArray _ => "array"
  | JObject _ => "object"
  end.

(** [json.RawMessage] is [[]byte]. *)
Abbreviation RawMessage := string (only parsing).

(** ** net/http and crypto/tls structures touched by [newDSP] *)

Section HTTP.
Context {CertPool : Type}.

(** [tls.Config]: [RootCAs = nil] means the host's root set is used. *)
Record tls_Config : Type := mk_tls_Config {
  InsecureSkipVerify : bool;
  RootCAs : option CertPool
}.

(** [http.Transport], with its [*tls.Config] pointer. *)
Record http_Transport : Type := mk_http_Transport {
  TLSClientConfig : option tls_Config
}.

(** [http.Client]; [Transport] is an interface value, [nil] by default. *)
Record http_Client : Type := mk_http_Client {
  Transport : option http_Transport
}.
End HTTP.

Arguments tls_Config : clear implicits.
Arguments http_Transport : clear implicits.
Arguments http_Client : clear implicits.

(** ** The collaborating libraries

    [newDSP] calls into [encoding/json], [crypto/x509], the engine's
    [models] package and the [go-powerdns] client.  None of them is part
    of this file; they are taken as an interface, and every property
    below holds for every implementation of it. *)
Class Externals : Type := {
  (** [zones.ZoneKind] of go-powerdns and its zero value. *)
  ZoneKind : Type;
  ZoneKind_zero : ZoneKind;
  (** Decoding of a JSON value into a [ZoneKind] field. *)
  ZoneKind_UnmarshalJSON : json_value -> ZoneKind -> ZoneKind * option error;
  (** The scanner of [encoding/json]: a syntax error, or the document. *)
  json_scan : string -> error + json_value;
  (** The case folding [encoding/json] uses to match object keys. *)
  json_foldName : string -> string;
  (** The test [models.ToNameservers] applies to each name: the error it
      reports for a name it rejects. *)
  models_rejects : string -> option error;
  (** [x509.CertPool], [x509.NewCertPool] and [AppendCertsFromPEM]. *)
  CertPool : Type;
  NewCertPool : CertPool;
  AppendCertsFromPEM : CertPool -> string -> CertPool * bool;
  (** [pdns.Client] and [pdns.New] applied to the options
      [WithBaseURL], [WithAPIKeyAuthentication], [WithHTTPClient]. *)
  pdns_Client : Type;
  pdns_New : string -> string -> http_Client CertPool ->
             option pdns_Client * option error
}.

(** ** strconv.ParseBool *)

(** The accepted spellings are those of the Go standard library. *)
Definition ParseBool (str : string) : bool * option error :=
  if existsb (String.eqb str) ["1"; "t"; "T"; "TRUE"; "true"; "True"]
  then (true, None)
  else if existsb (String.eqb str) ["0"; "f"; "F"; "FALSE"; "false"; "False"]
  then (false, None)
  else (false, Some (NumError "ParseBool" str)).

(** ** models.Nameserver *)

Record Nameserver : Type := mk_Nameserver { Name : string }.

(** Modelled from the spec: [models.ToNameservers] belongs to the
    engine's [models] package, which is not part of this file.  The
    spec describes it as the nameserver-model constructor that wraps
    each name into the engine's representation and may reject a
    malformed entry; a rejection is reported as an error and no list. *)
Definition ToNameservers `{Externals} (nss : list string)
  : list Nameserver * option error :=
  match omap models_rejects nss with
  | e :: _ => ([], Some e)
  | [] => (mk_Nameserver <$> nss, None)
  end.

(** ** The provider structure (lines 50-62) *)

Section Provider.
Context `{Externals}.

Record powerdnsProvider : Type := mk_powerdnsProvider {
  client : option pdns_Client;
  APIKey : string;
  APIUrl : string;
  ServerName : string;
  DefaultNS : list string;
  DNSSecOnCreate : bool;
  ZoneKind_ : ZoneKind;
  SOAEditAPI : string;
  nameservers : list Nameserver
}.

(** [&powerdnsProvider{}] *)
Definition powerdnsProvider_zero : powerdnsProvider :=
  mk_powerdnsProvider None "" "" "" [] false ZoneKind_zero "" [].

Definition set_client (v : option pdns_Client) (d : powerdnsProvider) :=
  mk_powerdnsProvider v (APIKey d) (APIUrl d) (ServerName d) (DefaultNS d)
    (DNSSecOnCreate d) (ZoneKind_ d) (SOAEditAPI d) (nameservers d).
Definition set_APIKey (v : string) (d : powerdnsProvider) :=
  mk_powerdnsProvider (client d) v (APIUrl d) (ServerName d) (DefaultNS d)
    (DNSSecOnCreate d) (ZoneKind_ d) (SOAEditAPI d) (nameservers d).
Definition set_APIUrl (v : string) (d : powerdnsProvider) :=
  mk_powerdnsProvider (client d) (APIKey d) v (ServerName d) (DefaultNS d)
    (DNSSecOnCreate d) (ZoneKind_ d) (SOAEditAPI d) (nameservers d).
Definition set_ServerName (v : string) (d : powerdnsProvider) :=
  mk_powerdnsProvider (client d) (APIKey d) (APIUrl d) v (DefaultNS d)
    (DNSSecOnCreate d) (ZoneKind_ d) (SOAEditAPI d) (nameservers d).
Definition set_DefaultNS (v : list string) (d : powerdnsProvider) :=
  mk_powerdnsProvider (client d) (APIKey d) (APIUrl d) (ServerName d) v
    (DNSSecOnCreate d) (ZoneKind_ d) (SOAEditAPI d) (nameservers d).
Definition set_DNSSecOnCreate (v : bool) (d : powerdnsProvider) :=
  mk_powerdnsProvider (client d) (APIKey d) (APIUrl d) (ServerName d)
    (DefaultNS d) v (ZoneKind_ d) (SOAEditAPI d) (nameservers d).
Definition set_ZoneKind (v : ZoneKind) (d : powerdnsProvider) :=
  mk_powerdnsProvider (client d) (APIKey d) (APIUrl d) (ServerName d)
    (DefaultNS d) (DNSSecOnCreate d) v (SOAEditAPI d) (nameservers d).
Definition set_SOAEditAPI (v : string) (d : powerdnsProvider) :=
  mk_powerdnsProvider (client d) (APIKey d) (APIUrl d) (ServerName d)
    (DefaultNS d) (DNSSecOnCreate d) (ZoneKind_ d) v (nameservers d).
Definition set_nameservers (v : list Nameserver) (d : powerdnsProvider) :=
  mk_powerdnsProvider (client d) (APIKey d) (APIUrl d) (ServerName d)
    (DefaultNS d) (DNSSecOnCreate d) (ZoneKind_ d) (SOAEditAPI d) v.

(** ** How a call of [newDSP] ends

    Either it returns its pair (a provider that may be [nil], an error
    that may be [nil]), or a run-time panic unwinds it. *)
Inductive outcome : Type :=
| Returned (p : option powerdnsProvider) (e : option error)
| Panicked (msg : string).

(** A step of the function body: it falls through to the next
    statement with a value, or it ends the call. *)
Inductive step (A : Type) : Type :=
| Next (a : A)
| Done (o : outcome).
Arguments Next {A} a.
Arguments Done {A} o.

Definition step_bind {A B : Type} (f : A -> step B) (s : step A) : step B :=
  match s with
  | Next a => f a
  | Done o => Done o
  end.

#[global] Instance step_mbind : MBind step := @step_bind.

Definition run (s : step outcome) : outcome :=
  match s with
  | Next o => o
  | Done o => o
  end.

(** [m[k]] on a Go map: the zero value when the key is absent. *)
Definition index (m : gmap string string) (k : string) : string :=
  default "" (m !! k).

(** ** Step 1, lines 66-81: the three mandatory fields *)
Definition requiredFields (m : gmap string string) : step powerdnsProvider :=
  let dsp := powerdnsProvider_zero in
  let dsp := set_APIKey (index m "apiKey") dsp in
  if String.eqb (APIKey dsp) "" then
    Done (Returned None (Some (Errorf "PowerDNS API Key is required")))
  else
  let dsp := set_APIUrl (index m "apiUrl") dsp in
  if String.eqb (APIUrl dsp) "" then
    Done (Returned None (Some (Errorf "PowerDNS API URL is required")))
  else
  let dsp := set_ServerName (index m "serverName") dsp in
  if String.eqb (ServerName dsp) "" then
    Done (Returned None (Some (Errorf "PowerDNS server name is required")))
  else Next dsp.

(** ** Step 2, lines 83-89: the metadata overlay

    [json.Unmarshal(metadata, dsp)] decodes into the exported fields of
    the structure.  A field with a [json] tag answers to the tag's
    name, an exported field without one answers to its own Go name, and
    the unexported [client] and [nameservers] are invisible to the
    decoder.  The table lists the decodable fields in declaration
    order. *)
Inductive field : Type :=
| F_APIKey | F_APIUrl | F_ServerName
| F_DefaultNS | F_DNSSecOnCreate | F_ZoneKind | F_SOAEditAPI.

Definition fields : list field :=
  [F_APIKey; F_APIUrl; F_ServerName;
   F_DefaultNS; F_DNSSecOnCreate; F_ZoneKind; F_SOAEditAPI].

Definition field_name (f : field) : string :=
  match f with
  | F_APIKey => "APIKey"
  | F_APIUrl => "APIUrl"
  | F_ServerName => "ServerName"
  | F_DefaultNS => "default_ns"
  | F_DNSSecOnCreate => "dnssec_on_create"
  | F_ZoneKind => "zone_kind"
  | F_SOAEditAPI => "soa_edit_api"
  end.

(** An object key selects the field whose name it equals, and failing
    that the first field whose folded name equals the folded key. *)
Definition field_for_key (key : string) : option field :=
  match find (fun f => String.eqb (field_name f) key) fields with
  | Some f => Some f
  | None =>
      find (fun f => String.eqb (json_foldName (field_name f))
                                (json_foldName key)) fields
  end.

(** The decoder's state: the structure being filled and the first type
    error met so far ([d.savedError]); a type error does not stop the
    walk. *)
Definition decodeState : Type := powerdnsProvider * option error.

Definition saveError (e : error) (st : decodeState) : decodeState :=
  match st.2 with
  | None => (st.1, Some e)
  | Some _ => st
  end.

Definition typeError (key : string) (v : json_value) : error :=
  UnmarshalTypeError (json_kind v) key.

(** Decoding into a [string] field. *)
Definition store_string (set : string -> powerdnsProvider -> powerdnsProvider)
    (key : string) (v : json_value) (st : decodeState) : decodeState :=
  match v with
  | JString s => (set s st.1, st.2)
  | JNull => st
  | _ => saveError (typeError key v) st
  end.

(** Decoding into a [bool] field. *)
Definition store_bool (set : bool -> powerdnsProvider -> powerdnsProvider)
    (key : string) (v : json_value) (st : decodeState) : decodeState :=
  match v with
  | JBool b => (set b st.1, st.2)
  | JNull => st
  | _ => saveError (typeError key v) st
  end.

(** Decoding the elements of an array into a [[]string]: the slice is
    reset and each element appended; [null] leaves the zero value, and
    an element of another kind leaves it too and records a type
    error. *)
Fixpoint store_elems (key : string) (elems : list json_value)
    (saved : option error) : list string * option error :=
  match elems with
  | [] => ([], saved)
  | v :: rest =>
      let '(s, saved) :=
        match v with
        | JString s => (s, saved)
        | JNull => ("", saved)
        | _ => ("", match saved with
                    | None => Some (typeError key v)
                    | Some _ => saved
                    end)
        end in
      let '(l, saved) := store_elems key rest saved in
      (s :: l, saved)
  end.

(** Decoding into the [[]string] field [DefaultNS]. *)
Definition store_strings (key : string) (v : json_value) (st : decodeState)
    : decodeState :=
  match v with
  | JArray elems =>
      let '(l, saved) := store_elems key elems st.2 in
      (set_DefaultNS l st.1, saved)
  | JNull => (set_DefaultNS [] st.1, st.2)
  | _ => saveError (typeError key v) st
  end.

(** Decoding one object member.  [zones.ZoneKind] decodes itself, and
    an error from it ends the walk at once ([inl]). *)
Definition store_member (key : string) (v : json_value) (st : decodeState)
    : (powerdnsProvider * error) + decodeState :=
  match field_for_key key with
  | None => inr st
  | Some F_APIKey => inr (store_string set_APIKey key v st)
  | Some F_APIUrl => inr (store_string set_APIUrl key v st)
  | Some F_ServerName => inr (store_string set_ServerName key v st)
  | Some F_DefaultNS => inr (store_strings key v st)
  | Some F_DNSSecOnCreate => inr (store_bool set_DNSSecOnCreate key v st)
  | Some F_ZoneKind =>
      match ZoneKind_UnmarshalJSON v (ZoneKind_ st.1) with
      | (k, None) => inr (set_ZoneKind k st.1, st.2)
      | (k, Some e) => inl (set_ZoneKind k st.1, e)
      end
  | Some F_SOAEditAPI => inr (store_string set_SOAEditAPI key v st)
  end.

Fixpoint store_members (members : list (string * json_value))
    (st : decodeState) : (powerdnsProvider * error) + decodeState :=
  match members with
  | [] => inr st
  | (key, v) :: rest =>
      match store_member key v st with
      | inl stop => inl stop
      | inr st => store_members rest st
      end
  end.

(** [json.Unmarshal(data, dsp)] with [dsp : *powerdnsProvider]: the
    structure as the decoder leaves it, and the error it returns. *)
Definition json_Unmarshal (data : RawMessage) (dsp : powerdnsProvider)
    : powerdnsProvider * option error :=
  match json_scan data with
  | inl syntaxError => (dsp, Some syntaxError)
  | inr JNull => (dsp, None)
  | inr (JObject members) =>
      match store_members members (dsp, None) with
      | inl (dsp, e) => (dsp, Some e)
      | inr st => st
      end
  | inr v => (dsp, Some (typeError "" v))
  end.

Definition loadMetadata (metadata : RawMessage) (dsp : powerdnsProvider)
    : step powerdnsProvider :=
  if negb (Nat.eqb (String.length metadata) 0) then
    let '(dsp, err) := json_Unmarshal metadata dsp in
    match err with
    | Some err => Done (Returned None (Some err))
    | None => Next dsp
    end
  else Next dsp.

(** ** Step 3, lines 90-98: nameserver normalisation *)

(** [ns[0:len(ns)-1]]: the slice expression panics when its upper bound
    is negative. *)
Definition slice_to_last (ns : string) : step string :=
  let hi := Z.of_nat (String.length ns) - 1 in
  if hi <? 0 then
    Done (Panicked "slice bounds out of range [:-1]")
  else Next (String.substring 0 (Z.to_nat hi) ns).

(** The loop of lines 91-93, appending to [nss] in order. *)
Fixpoint stripLoop (defaultNS : list string) (nss : list string)
    : step (list string) :=
  match defaultNS with
  | [] => Next nss
  | ns :: rest =>
      s ← slice_to_last ns;
      stripLoop rest (nss ++ [s])
  end.

(** Lines 94-98: the stripped names go to the engine's constructor. *)
Definition wrapNameservers (nss : list string) (dsp : powerdnsProvider)
    : step powerdnsProvider :=
  let '(l, err) := ToNameservers nss in
  let dsp := set_nameservers l dsp in
  match err with
  | Some err => Done (Returned (Some dsp) (Some err))
  | None => Next dsp
  end.

Definition toNameservers (dsp : powerdnsProvider) : step powerdnsProvider :=
  nss ← stripLoop (DefaultNS dsp) [];
  wrapNameservers nss dsp.

(** ** Step 4, lines 100-125: the HTTP client and its transport *)

Abbreviation Client := (http_Client CertPool).

(** [&http.Transport{TLSClientConfig: &tls.Config{}}] when the client
    has no transport yet. *)
Definition ensureTransport (c : Client) : Client :=
  match Transport c with
  | None =>
      mk_http_Client
        (Some (mk_http_Transport (Some (mk_tls_Config false None))))
  | Some _ => c
  end.

(** An assignment through the [TLSClientConfig] of the client's
    transport, reached by a type assertion on [client.Transport] and a
    pointer dereference. *)
Definition updateTLS (f : tls_Config CertPool -> tls_Config CertPool)
    (c : Client) : step Client :=
  match Transport c with
  | None => Done (Panicked "interface conversion: interface is nil")
  | Some t =>
      match TLSClientConfig t with
      | None => Done (Panicked "nil pointer dereference")
      | Some cfg => Next (mk_http_Client (Some (mk_http_Transport (Some (f cfg)))))
      end
  end.

(** Lines 102-111. *)
Definition skipTLSVerify (m : gmap string string) (dsp : powerdnsProvider)
    (c : Client) : step Client :=
  match m !! "skipTLSVerify" with
  | Some _ =>
      let c := ensureTransport c in
      let '(b, err) := ParseBool (index m "skipTLSVerify") in
      c ← updateTLS (fun cfg => mk_tls_Config b (RootCAs cfg)) c;
      match err with
      | Some err => Done (Returned (Some dsp) (Some err))
      | None => Next c
      end
  | None => Next c
  end.

(** Lines 113-125. *)
Definition cert (m : gmap string string) (dsp : powerdnsProvider)
    (c : Client) : step Client :=
  match m !! "cert" with
  | Some _ =>
      let c := ensureTransport c in
      let roots := NewCertPool in
      let '(roots, ok) := AppendCertsFromPEM roots (index m "cert") in
      if negb ok then
        Done (Returned (Some dsp)
                (Some (Errorf "unable to parse given certificate")))
      else
        updateTLS (fun cfg => mk_tls_Config (InsecureSkipVerify cfg) (Some roots)) c
  | None => Next c
  end.

(** Lines 100-125. *)
Definition httpClient (m : gmap string string) (dsp : powerdnsProvider)
    : step Client :=
  let c := mk_http_Client None in
  c ← skipTLSVerify m dsp c;
  cert m dsp c.

(** ** Step 5, lines 127-133: client assembly *)
Definition assemble (dsp : powerdnsProvider) (c : Client) : outcome :=
  let '(cl, clientErr) := pdns_New (APIUrl dsp) (APIKey dsp) c in
  Returned (Some (set_client cl dsp)) clientErr.

(** ** [newDSP], lines 64-134 *)
Definition newDSP (m : gmap string string) (metadata : RawMessage) : outcome :=
  run (
    dsp ← requiredFields m;
    dsp ← loadMetadata metadata dsp;
    dsp ← toNameservers dsp;
    c ← httpClient m dsp;
    Next (assemble dsp c)).

End Provider.

Arguments Next {_ A} a.
Arguments Done {_ A} o.

Arguments powerdnsProvider : clear implicits.
Arguments outcome : clear implicits.

(** Steps 1-2 together: the instance with its configuration resolved. *)
Definition resolve `{Externals} (m : gmap string string) (metadata : RawMessage)
    : step (powerdnsProvider _) :=
  dsp ← requiredFields m;
  loadMetadata metadata dsp.

(** Steps 1-3 together: the instance as the transport steps receive it. *)
Definition prepare `{Externals} (m : gmap string string) (metadata : RawMessage)
    : step (powerdnsProvider _) :=
  dsp ← resolve m metadata;
  toNameservers dsp.

(** A name that still ends in the root label's dot. *)
Fixpoint has_trailing_dot (s : string) : bool :=
  match s with
  | "" => false
  | String c "" => Ascii.eqb c "."%char
  | String _ rest => has_trailing_dot rest
  end.

(** [s] is [ns] with its one last byte taken off, whatever that byte. *)
Definition stripped (ns s : string) : Prop := ∃ c, ns = s +:+ String c "".

(** The client whose transport carries the TLS configuration [cfg]. *)
Definition tlsClient `{Externals} (cfg : tls_Config CertPool)
    : http_Client CertPool :=
  mk_http_Client (Some (mk_http_Transport (Some cfg))).

(** The verification-skip flag a client carries; [false] without a
    transport of its own. *)
Definition skipFlag `{Externals} (c : http_Client CertPool) : bool :=
  match Transport c with
  | Some t =>
      match TLSClientConfig t with
      | Some cfg => InsecureSkipVerify cfg
      | None => false
      end
  | None => false
  end.

(** The clients step 4 can hold: the default one, or one with the
    lazily allocated transport. *)
Definition allocated `{Externals} (c : http_Client CertPool) : Prop :=
  c = mk_http_Client None ∨ ∃ cfg, c = tlsClient cfg.

(** The unexported fields of [dsp'] are those of [dsp]. *)
Definition unexported_kept `{Externals} (dsp dsp' : powerdnsProvider _) : Prop :=
  client dsp' = client dsp ∧ nameservers dsp' = nameservers dsp.

(** A configuration key that is absent or bound to the empty string. *)
Definition missing (m : gmap string string) (k : string) : Prop :=
  m !! k = None ∨ m !! k = Some "".

(** The root set a client carries; [None] without a transport of its
    own, and then the host's roots are used. *)
Definition rootCAs `{Externals} (c : http_Client CertPool) : option CertPool :=
  match Transport c with
  | Some t =>
      match TLSClientConfig t with
      | Some cfg => RootCAs cfg
      | None => None
      end
  | None => None
  end.

(** The spellings [strconv.ParseBool] reads as true, and as false. *)
Definition true_spellings : list string :=
  ["1"; "t"; "T"; "TRUE"; "true"; "True"].
Definition false_spellings : list string :=
  ["0"; "f"; "F"; "FALSE"; "false"; "False"].

(** The configuration keys [newDSP] looks at. *)
Definition config_keys : list string :=
  ["apiKey"; "apiUrl"; "serverName"; "skipTLSVerify"; "cert"].

(** Two configuration maps that agree on those keys. *)
Definition agree_on_config_keys (m m' : gmap string string) : Prop :=
  ∀ k, k ∈ config_keys → m !! k = m' !! k.

(** The instance step 1 builds from a configuration map. *)
Definition configured `{Externals} (m : gmap string string)
    : powerdnsProvider _ :=
  mk_powerdnsProvider None (index m "apiKey") (index m "apiUrl")
    (index m "serverName") [] false ZoneKind_zero "" [].

(** The fields of the structure that hold the credentials. *)
Definition credential_fields : list (option field) :=
  [Some F_APIKey; Some F_APIUrl; Some F_ServerName].

(** The JSON values a field of the structure takes without a type
    error; [zones.ZoneKind] decides for itself. *)
Definition kind_accepted (f : field) (v : json_value) : bool :=
  match f with
  | F_APIKey | F_APIUrl | F_ServerName | F_SOAEditAPI =>
      match v with
      | JString _ | JNull => true
      | _ => false
      end
  | F_DNSSecOnCreate =>
      match v with
      | JBool _ | JNull => true
      | _ => false
      end
  | F_DefaultNS =>
      match v with
      | JArray elems =>
          forallb (λ e, match e with
                        | JString _ | JNull => true
                        | _ => false
                        end) elems
      | JNull => true
      | _ => false
      end
  | F_ZoneKind => true
  end.

(** A decoding that ended with an error: the walk was cut short, or a
    type error was saved. *)
Definition decode_failed `{Externals}
    (r : (powerdnsProvider _ * error) + decodeState) : Prop :=
  match r with
  | inl _ => True
  | inr st => is_Some st.2
  end.

(** A fully qualified name: the name followed by the root label's dot. *)
Definition fqdn (name : string) : string := name +:+ ".".

(** ** The capability declaration and the registration hook *)

(** Modelled from the spec: the capability identifiers are declared in
    [providers/capabilities.go], which is not part of this file.  The
    sixteen this provider lists are named; [OtherCapability] stands for
    the rest of the enumeration. *)
Inductive Capability : Type :=
| CanAutoDNSSEC | CanGetZones | CanConcur | CanUseAlias | CanUseCAA
| CanUseDS | CanUseDHCID | CanUseLOC | CanUseNAPTR | CanUsePTR
| CanUseSRV | CanUseSSHFP | CanUseTLSA
| DocCreateDomains | DocDualHost | DocOfficiallySupported
| OtherCapability (n : nat).

#[global] Instance Capability_eq_dec : EqDecision Capability.
Proof. solve_decision. Defined.

Definition Capability_code (c : Capability) : nat :=
  match c with
  | CanAutoDNSSEC => 0 | CanGetZones => 1 | CanConcur => 2
  | CanUseAlias => 3 | CanUseCAA => 4 | CanUseDS => 5
  | CanUseDHCID => 6 | CanUseLOC => 7 | CanUseNAPTR => 8
  | CanUsePTR => 9 | CanUseSRV => 10 | CanUseSSHFP => 11
  | CanUseTLSA => 12 | DocCreateDomains => 13 | DocDualHost => 14
  | DocOfficiallySupported => 15
  | OtherCapability n => 16 + n
  end%nat.

Definition Capability_of_code (k : nat) : Capability :=
  match k with
  | 0 => CanAutoDNSSEC | 1 => CanGetZones | 2 => CanConcur
  | 3 => CanUseAlias | 4 => CanUseCAA | 5 => CanUseDS
  | 6 => CanUseDHCID | 7 => CanUseLOC | 8 => CanUseNAPTR
  | 9 => CanUsePTR | 10 => CanUseSRV | 11 => CanUseSSHFP
  | 12 => CanUseTLSA | 13 => DocCreateDomains | 14 => DocDualHost
  | 15 => DocOfficiallySupported
  | _ => OtherCapability (k - 16)
  end%nat.

#[global] Program Instance Capability_countable : Countable Capability :=
  inj_countable' Capability_code Capability_of_code _.
Next Obligation.
  intros c. destruct c; try reflexivity.
  unfold Capability_code, Capability_of_code.
  replace (16 + n - 16)%nat with n by lia.
  reflexivity.
Qed.

(** Modelled from the spec: the support descriptor of a capability
    ([providers.DocumentationNote]) and its three constructors; the
    optional arguments are a note and a reference link. *)
Record DocumentationNote : Type := mk_DocumentationNote {
  HasFeature : bool;
  Unimplemented_ : bool;
  Comment : string;
  Link : string
}.

#[global] Instance DocumentationNote_eq_dec : EqDecision DocumentationNote.
Proof. solve_decision. Defined.

Definition withComments (has unimpl : bool) (comments : list string)
    : DocumentationNote :=
  mk_DocumentationNote has unimpl
    (default "" (comments !! 0%nat)) (default "" (comments !! 1%nat)).

Definition Can (comments : list string) := withComments true false comments.
Definition Cannot (comments : list string) := withComments false false comments.
Definition Unimplemented (comments : list string) := withComments false true comments.

Abbreviation DocumentationNotes := (gmap Capability DocumentationNote).

(** Lines 18-37. *)
Definition features : DocumentationNotes :=
  list_to_map [
    (CanAutoDNSSEC, Can []);
    (CanGetZones, Can []);
    (CanConcur, Cannot []);
    (CanUseAlias, Can ["Needs to be enabled in PowerDNS first";
                       "https://doc.powerdns.com/authoritative/guides/alias.html"]);
    (CanUseCAA, Can []);
    (CanUseDS, Can []);
    (CanUseDHCID, Can []);
    (CanUseLOC, Unimplemented
       ["Normalization within the PowerDNS API seems to be buggy, so disabled";
        "https://github.com/PowerDNS/pdns/issues/10558"]);
    (CanUseNAPTR, Can []);
    (CanUsePTR, Can []);
    (CanUseSRV, Can []);
    (CanUseSSHFP, Can []);
    (CanUseTLSA, Can []);
    (DocCreateDomains, Can []);
    (DocDualHost, Can []);
    (DocOfficiallySupported, Cannot [])
  ].

Section Registration.
Context `{Externals}.
(** The record auditor lives in another file of the package; only its
    place in the registration is of interest here. *)
Context {RecordConfig : Type} (AuditRecords : list RecordConfig -> list error).

(** [providers.DspFuncs] *)
Record DspFuncs : Type := mk_DspFuncs {
  Initializer : gmap string string -> RawMessage -> outcome _;
  RecordAuditor : list RecordConfig -> list error
}.

(** Modelled from the spec: an entry of the process-wide registry of
    provider types ([providers] package, not part of this file): the
    constructor and auditor, the capability declaration and the
    maintainer contact, looked up by the provider-type name. *)
Record Registration : Type := mk_Registration {
  funcs : DspFuncs;
  capabilities : DocumentationNotes;
  maintainer : option string
}.

(** Modelled from the spec: [providers.RegisterDomainServiceProviderType];
    registering a name twice is a fatal start-up error ([None]). *)
Definition RegisterDomainServiceProviderType (name : string) (fns : DspFuncs)
    (notes : DocumentationNotes) (reg : gmap string Registration)
    : option (gmap string Registration) :=
  match reg !! name with
  | Some _ => None
  | None => Some (<[name := mk_Registration fns notes None]> reg)
  end.

(** Modelled from the spec: [providers.RegisterMaintainer]. *)
Definition RegisterMaintainer (name maint : string)
    (reg : gmap string Registration) : gmap string Registration :=
  alter (fun r => mk_Registration (funcs r) (capabilities r) (Some maint))
        name reg.

(** The state the operations of this file can reach: the package
    variable [features] and the registry. *)
Record process : Type := mk_process {
  features_var : DocumentationNotes;
  registry : gmap string Registration
}.

(** The state once the package variables are initialised, before any
    [init] function has run. *)
Definition loaded : process := mk_process features ∅.

(** Lines 39-48. *)
Definition init (st : process) : option process :=
  let providerName := "POWERDNS" in
  let providerMaintainer := "@jpbede" in
  let fns := mk_DspFuncs newDSP AuditRecords in
  reg ← RegisterDomainServiceProviderType providerName fns
          (features_var st) (registry st);
  let reg := RegisterMaintainer providerName providerMaintainer reg in
  Some (mk_process (features_var st) reg).

(** The operations of this file, as the engine triggers them. *)
Inductive call : Type :=
| CallInit
| CallNewDSP (m : gmap string string) (metadata : RawMessage).

(** One operation on the process state; [None] when the process stops
    (fatal registration error, or a panic unwinding [newDSP]). *)
Definition exec (c : call) (st : process) : option process :=
  match c with
  | CallInit => init st
  | CallNewDSP m metadata =>
      match newDSP m metadata with
      | Returned _ _ => Some st
      | Panicked _ => None
      end
  end.

Fixpoint execs (cs : list call) (st : process) : option process :=
  match cs with
  | [] => Some st
  | c :: rest => st ← exec c st; execs rest st
  end.
(** What every reachable state keeps: the package variable is the
    declaration as written, and an entry under "POWERDNS" carries it. *)
Definition declaration_kept (st : process) : Prop :=
  features_var st = features ∧
  ∀ r, registry st !! "POWERDNS" = Some r → capabilities r = features.
End Registration.

Arguments DspFuncs {_} RecordConfig.
Arguments Registration {_} RecordConfig.
Arguments process {_} RecordConfig.

(** ** A concrete set of collaborators

    Small stand-ins for the libraries, used to run the constructor on
    concrete configurations.  The scanner knows the documents listed
    here and treats every other input as a syntax error. *)
Module Fixture.

Definition quoted (s : string) : string :=
  String "034"%char (s +:+ String "034"%char "").

(** [{"default_ns":["ns1.example.com.","ns2.example.com."]}] *)
Definition doc_default_ns : string :=
  "{" +:+ quoted "default_ns" +:+ ":[" +:+ quoted "ns1.example.com."
      +:+ "," +:+ quoted "ns2.example.com." +:+ "]}".

(** [{"default_ns":["ns1.example.com.",""]}] *)
Definition doc_empty_entry : string :=
  "{" +:+ quoted "default_ns" +:+ ":[" +:+ quoted "ns1.example.com."
      +:+ "," +:+ quoted "" +:+ "]}".

(** [{"default_ns":["ns1.example.com.."]}] *)
Definition doc_two_dots : string :=
  "{" +:+ quoted "default_ns" +:+ ":[" +:+ quoted "ns1.example.com.." +:+ "]}".

(** [{"default_ns":["ns1.example.com"]}] *)
Definition doc_no_dot : string :=
  "{" +:+ quoted "default_ns" +:+ ":[" +:+ quoted "ns1.example.com" +:+ "]}".

(** [{"APIKey":""}] *)
Definition doc_api_key : string :=
  "{" +:+ quoted "APIKey" +:+ ":" +:+ quoted "" +:+ "}".

(** [{"default_ns":] *)
Definition doc_truncated : string :=
  "{" +:+ quoted "default_ns" +:+ ":".

Definition scan (data : string) : error + json_value :=
  if String.eqb data doc_default_ns then
    inr (JObject [("default_ns",
                   JArray [JString "ns1.example.com."; JString "ns2.example.com."])])
  else if String.eqb data doc_empty_entry then
    inr (JObject [("default_ns", JArray [JString "ns1.example.com."; JString ""])])
  else if String.eqb data doc_two_dots then
    inr (JObject [("default_ns", JArray [JString "ns1.example.com.."])])
  else if String.eqb data doc_no_dot then
    inr (JObject [("default_ns", JArray [JString "ns1.example.com"])])
  else if String.eqb data doc_api_key then
    inr (JObject [("APIKey", JString "")])
  else inl (LibError "encoding/json" "unexpected end of JSON input").

Definition upper (c : ascii) : ascii :=
  let n := nat_of_ascii c in
  if ((97 <=? n) && (n <=? 122))%nat then ascii_of_nat (n - 32) else c.

Fixpoint foldName (s : string) : string :=
  match s with
  | "" => ""
  | String c rest => String (upper c) (foldName rest)
  end.

Definition zoneKind (v : json_value) (old : Z) : Z * option error :=
  match v with
  | JString "Native" => (1, None)
  | JString "Master" => (2, None)
  | JString "Slave" => (3, None)
  | _ => (old, Some (LibError "zones" "unsupported zone kind"))
  end.

Definition rejects (name : string) : option error :=
  if has_trailing_dot name then
    Some (LibError "models" "provider code leaves trailing dot on nameserver")
  else None.

Definition appendCerts (pool : list string) (pem : string)
    : list string * bool :=
  if String.prefix "-----BEGIN CERTIFICATE-----" pem
  then ((pool ++ [pem])%list, true)
  else (pool, false).

Definition newClient (url key : string) (c : http_Client (list string))
    : option (string * string * http_Client (list string)) * option error :=
  if String.prefix "http" url then (Some (url, key, c), None)
  else (None, Some (LibError "pdns" "unsupported protocol scheme")).

Definition lib : Externals := {|
  ZoneKind := Z;
  ZoneKind_zero := 0;
  ZoneKind_UnmarshalJSON := zoneKind;
  json_scan := scan;
  json_foldName := foldName;
  models_rejects := rejects;
  CertPool := list string;
  NewCertPool := [];
  AppendCertsFromPEM := appendCerts;
  pdns_Client := string * string * http_Client (list string);
  pdns_New := newClient
|}.

(** The configuration of the end-to-end scenario. *)
Definition config : gmap string string :=
  <["apiKey" := "k"]> (<["apiUrl" := "https://pdns.example/api"]>
    (<["serverName" := "localhost"]> ∅)).

(** The instance steps 1-2 build from [config] when the metadata sets
    the default nameserver list to [ns]. *)
Definition resolved (ns : list string) : powerdnsProvider lib :=
  @mk_powerdnsProvider lib None "k" "https://pdns.example/api" "localhost"
    ns false 0 "" [].

(** A record auditor that accepts everything. *)
Definition audit (records : list unit) : list error := [].

(** The state after [init]. *)
Definition registered : @process lib unit :=
  mk_process features
    (<["POWERDNS" :=
         mk_Registration (mk_DspFuncs (@newDSP lib) audit) features
           (Some "@jpbede")]> ∅).

End Fixture.

(** The same collaborators with a scanner that knows two more
    documents: one with a member no field answers to, one with a
    member of the wrong JSON kind. *)
Module Documents.

(** [{"default_nameservers":["ns1.example.com."]}] *)
Definition doc_unknown_member : string :=
  "{" +:+ Fixture.quoted "default_nameservers" +:+ ":["
      +:+ Fixture.quoted "ns1.example.com." +:+ "]}".

(** [{"default_ns":"ns1.example.com."}] *)
Definition doc_wrong_kind : string :=
  "{" +:+ Fixture.quoted "default_ns" +:+ ":"
      +:+ Fixture.quoted "ns1.example.com." +:+ "}".

Definition scan (data : string) : error + json_value :=
  if String.eqb data doc_unknown_member then
    inr (JObject [("default_nameservers", JArray [JString "ns1.example.com."])])
  else if String.eqb data doc_wrong_kind then
    inr (JObject [("default_ns", JString "ns1.example.com.")])
  else Fixture.scan data.

Definition lib : Externals := {|
  ZoneKind := Z;
  ZoneKind_zero := 0;
  ZoneKind_UnmarshalJSON := Fixture.zoneKind;
  json_scan := scan;
  json_foldName := Fixture.foldName;
  models_rejects := Fixture.rejects;
  CertPool := list string;
  NewCertPool := [];
  AppendCertsFromPEM := Fixture.appendCerts;
  pdns_Client := string * string * http_Client (list string);
  pdns_New := Fixture.newClient
|}.

End Documents.

(** The same collaborators with a nameserver-model constructor that
    rejects no name. *)
Module Permissive.

Definition lib : Externals := {|
  ZoneKind := Z;
  ZoneKind_zero := 0;
  ZoneKind_UnmarshalJSON := Fixture.zoneKind;
  json_scan := Fixture.scan;
  json_foldName := Fixture.foldName;
  models_rejects := λ _, None;
  CertPool := list string;
  NewCertPool := [];
  AppendCertsFromPEM := Fixture.appendCerts;
  pdns_Client := string * string * http_Client (list string);
  pdns_New := Fixture.newClient
|}.

End Permissive.


(** * Properties *)

(** ** Reading the configuration map *)

Lemma index_empty_iff (m : gmap string string) (k : string) :
  index m k = "" ↔ missing m k.
Proof.
  unfold index, missing.
  destruct (m !! k) as [v|]; simpl; split; intros Hk.
  - right. by rewrite Hk.
  - destruct Hk as [Hk|Hk]; [discriminate | by inversion Hk].
  - by left.
  - reflexivity.
Qed.

Lemma index_present (m : gmap string string) (k v : string) :
  m !! k = Some v → index m k = v.
Proof. intros Hk. unfold index. by rewrite Hk. Qed.

Lemma eqb_empty_false (s : string) : s ≠ "" → String.eqb s "" = false.
Proof. intros Hs. by apply String.eqb_neq. Qed.

(** ** The body of [newDSP], cut after each step *)

Section Unfolding.
Context `{Externals}.
Implicit Types (m : gmap string string) (metadata : RawMessage).
Implicit Types (dsp : powerdnsProvider _).

Lemma newDSP_stopped_resolving m metadata o :
  resolve m metadata = Done o → newDSP m metadata = o.
Proof.
  unfold newDSP, resolve. intros Hr.
  destruct (requiredFields m) as [dsp0|o0]; simpl in *.
  - by rewrite Hr.
  - by inversion Hr.
Qed.

Lemma newDSP_resolved m metadata dsp :
  resolve m metadata = Next dsp →
  newDSP m metadata =
    run (dsp ← toNameservers dsp; c ← httpClient m dsp; Next (assemble dsp c)).
Proof.
  unfold newDSP, resolve. intros Hr.
  destruct (requiredFields m) as [dsp0|o0]; simpl in *.
  - by rewrite Hr.
  - discriminate.
Qed.

Lemma prepare_resolved m metadata dsp :
  resolve m metadata = Next dsp → prepare m metadata = toNameservers dsp.
Proof. unfold prepare. by intros ->. Qed.

Lemma prepare_inv m metadata dsp :
  prepare m metadata = Next dsp →
  ∃ dsp1, resolve m metadata = Next dsp1 ∧ toNameservers dsp1 = Next dsp.
Proof.
  unfold prepare. destruct (resolve m metadata) as [dsp1|o]; simpl.
  - intros Hn. by exists dsp1.
  - discriminate.
Qed.

Lemma newDSP_prepared m metadata dsp :
  prepare m metadata = Next dsp →
  newDSP m metadata = run (c ← httpClient m dsp; Next (assemble dsp c)).
Proof.
  intros (dsp1 & Hr & Hn)%prepare_inv.
  rewrite (newDSP_resolved _ _ _ Hr), Hn. reflexivity.
Qed.

Lemma newDSP_assembled m metadata dsp c :
  prepare m metadata = Next dsp → httpClient m dsp = Next c →
  newDSP m metadata = assemble dsp c.
Proof.
  intros Hp Hc. rewrite (newDSP_prepared _ _ _ Hp), Hc. reflexivity.
Qed.

Lemma newDSP_stopped_in_transport m metadata dsp o :
  prepare m metadata = Next dsp → httpClient m dsp = Done o →
  newDSP m metadata = o.
Proof.
  intros Hp Hc. rewrite (newDSP_prepared _ _ _ Hp), Hc. reflexivity.
Qed.

End Unfolding.

(** ** Step 1: mandatory fields *)

(** C1: whenever [apiKey], [apiUrl] or [serverName] is absent or empty,
    [newDSP] returns a nil provider and the error naming the first such
    field in the order apiKey, apiUrl, serverName; the result does not
    depend on the metadata or on any collaborator, so nothing after
    the failed check is evaluated. *)
Theorem newDSP_missing_required_field `{Externals}
    (m : gmap string string) (metadata : RawMessage) :
  (missing m "apiKey" →
   newDSP m metadata =
     Returned None (Some (Errorf "PowerDNS API Key is required"))) ∧
  (¬ missing m "apiKey" → missing m "apiUrl" →
   newDSP m metadata =
     Returned None (Some (Errorf "PowerDNS API URL is required"))) ∧
  (¬ missing m "apiKey" → ¬ missing m "apiUrl" → missing m "serverName" →
   newDSP m metadata =
     Returned None (Some (Errorf "PowerDNS server name is required"))).
Proof.
  rewrite <- !index_empty_iff.
  split; [|split].
  - intros Hk. apply newDSP_stopped_resolving.
    unfold resolve, requiredFields. simpl. by rewrite Hk.
  - intros Hk Hu. apply newDSP_stopped_resolving.
    unfold resolve, requiredFields. simpl.
    by rewrite (eqb_empty_false _ Hk), Hu.
  - intros Hk Hu Hs. apply newDSP_stopped_resolving.
    unfold resolve, requiredFields. simpl.
    by rewrite (eqb_empty_false _ Hk), (eqb_empty_false _ Hu), Hs.
Qed.

Lemma newDSP_missing_required_field_witness :
  @newDSP Fixture.lib ∅ "" =
    Returned None (Some (Errorf "PowerDNS API Key is required")) ∧
  @newDSP Fixture.lib (<["apiKey" := "k"]> ∅) Fixture.doc_default_ns =
    Returned None (Some (Errorf "PowerDNS API URL is required")) ∧
  @newDSP Fixture.lib (<["apiKey" := "k"]> (<["apiUrl" := "u"]>
                        (<["serverName" := ""]> ∅))) "" =
    Returned None (Some (Errorf "PowerDNS server name is required")).
Proof.
  split; [|split].
  - apply (proj1 (@newDSP_missing_required_field Fixture.lib ∅ "")).
    left. reflexivity.
  - apply (proj1 (proj2 (@newDSP_missing_required_field Fixture.lib
                           (<["apiKey" := "k"]> ∅) Fixture.doc_default_ns))).
    + intros [Hk|Hk]; vm_compute in Hk; discriminate.
    + left. reflexivity.
  - apply (proj2 (proj2 (@newDSP_missing_required_field Fixture.lib
                           (<["apiKey" := "k"]> (<["apiUrl" := "u"]>
                              (<["serverName" := ""]> ∅))) ""))).
    + intros [Hk|Hk]; vm_compute in Hk; discriminate.
    + intros [Hk|Hk]; vm_compute in Hk; discriminate.
    + right. reflexivity.
Defined.

(** ** Step 3: nameserver normalisation *)

Lemma slice_to_last_empty `{Externals} :
  slice_to_last "" = Done (Panicked "slice bounds out of range [:-1]").
Proof. reflexivity. Qed.

Lemma substring_all_but_last (ns : string) :
  ns ≠ "" →
  ∃ c, ns = String.substring 0 (String.length ns - 1) ns +:+ String c "".
Proof.
  induction ns as [|a ns IH]; [done|]. intros _.
  destruct ns as [|b ns].
  - exists a. reflexivity.
  - destruct IH as [c Hc]; [done|]. exists c.
    replace (String.length (String a (String b ns)) - 1)%nat
      with (S (String.length (String b ns) - 1)) by (cbn [String.length]; lia).
    change (String.substring 0 (S ?n) (String a ?s))
      with (String a (String.substring 0 n s)).
    change (String a ?x +:+ ?y) with (String a (x +:+ y)).
    f_equal. exact Hc.
Qed.

Lemma slice_to_last_nonempty `{Externals} (ns : string) :
  ns ≠ "" →
  ∃ s c, slice_to_last ns = Next s ∧ ns = s +:+ String c "".
Proof.
  intros Hns. destruct (substring_all_but_last ns Hns) as [c Hc].
  exists (String.substring 0 (String.length ns - 1) ns), c.
  split; [|exact Hc].
  unfold slice_to_last. destruct ns as [|a ns]; [done|].
  cbn [String.length].
  destruct (Z.ltb_spec (Z.of_nat (S (String.length ns)) - 1) 0) as [Hlt|_]; [lia|].
  do 2 f_equal. lia.
Qed.

Lemma stripLoop_nonempty `{Externals} (defaultNS acc : list string) :
  Forall (λ ns, ns ≠ "") defaultNS →
  ∃ nss, stripLoop defaultNS acc = Next (acc ++ nss) ∧
         Forall2 stripped defaultNS nss.
Proof.
  intros Hall. revert acc.
  induction Hall as [|ns rest Hns _ IH]; intros acc.
  - exists []. split; [by rewrite app_nil_r | constructor].
  - destruct (slice_to_last_nonempty ns Hns) as (s & c & Hs & Hc).
    destruct (IH (acc ++ [s])) as (nss & Hloop & Hrel).
    exists (s :: nss). split.
    + simpl. rewrite Hs. simpl. rewrite Hloop. by rewrite <- app_assoc.
    + constructor; [by exists c | exact Hrel].
Qed.

Lemma stripLoop_empty_entry `{Externals} (defaultNS acc : list string) :
  "" ∈ defaultNS →
  stripLoop defaultNS acc = Done (Panicked "slice bounds out of range [:-1]").
Proof.
  revert acc. induction defaultNS as [|ns rest IH]; intros acc Hin.
  - by apply not_elem_of_nil in Hin.
  - simpl. destruct (decide (ns = "")) as [->|Hns]; [reflexivity|].
    destruct (slice_to_last_nonempty ns Hns) as (s & c & Hs & _).
    rewrite Hs. simpl. apply IH.
    apply elem_of_cons in Hin as [Heq|Hin]; [congruence | exact Hin].
Qed.

Lemma not_elem_of_empty_string (l : list string) :
  "" ∉ l ↔ Forall (λ ns, ns ≠ "") l.
Proof.
  rewrite Forall_forall. split.
  - intros Hn ns Hin ->. by apply Hn.
  - intros Hall Hin. by apply (Hall "" Hin).
Qed.

Lemma toNameservers_nonempty `{Externals} (dsp : powerdnsProvider _) :
  Forall (λ ns, ns ≠ "") (DefaultNS dsp) →
  ∃ nss, stripLoop (DefaultNS dsp) [] = Next nss ∧
         Forall2 stripped (DefaultNS dsp) nss ∧
         toNameservers dsp = wrapNameservers nss dsp.
Proof.
  intros Hall.
  destruct (stripLoop_nonempty (DefaultNS dsp) [] Hall) as (nss & Hloop & Hrel).
  exists nss. split; [exact Hloop|]. split; [exact Hrel|].
  unfold toNameservers. by rewrite Hloop.
Qed.



Lemma wrapNameservers_Next `{Externals} nss (dsp dsp' : powerdnsProvider _) :
  wrapNameservers nss dsp = Next dsp' →
  ∃ l, ToNameservers nss = (l, None) ∧ dsp' = set_nameservers l dsp.
Proof.
  unfold wrapNameservers. destruct (ToNameservers nss) as [l [e|]].
  - discriminate.
  - intros [= <-]. by exists l.
Qed.

Lemma wrapNameservers_cases `{Externals} nss (dsp : powerdnsProvider _) :
  (∃ dsp', wrapNameservers nss dsp = Next dsp') ∨
  (∃ p e, wrapNameservers nss dsp = Done (Returned p e)).
Proof.
  unfold wrapNameservers. destruct (ToNameservers nss) as [l [e|]]; eauto.
Qed.

(** ** Step 4: the transport *)

Section Transport.
Context `{Externals}.
Implicit Types (m : gmap string string) (dsp : powerdnsProvider _).
Implicit Types (c : http_Client CertPool).

Lemma skipTLSVerify_fresh m dsp :
  skipTLSVerify m dsp (mk_http_Client None) =
    match m !! "skipTLSVerify" with
    | None => Next (mk_http_Client None)
    | Some v =>
        match ParseBool v with
        | (b, None) => Next (tlsClient (mk_tls_Config b None))
        | (b, Some e) => Done (Returned (Some dsp) (Some e))
        end
    end.
Proof.
  unfold skipTLSVerify. destruct (m !! "skipTLSVerify") as [v|] eqn:Hv;
    [|reflexivity].
  rewrite (index_present _ _ _ Hv).
  by destruct (ParseBool v) as [b [e|]].
Qed.

Lemma cert_allocated m dsp c :
  allocated c →
  cert m dsp c =
    match m !! "cert" with
    | None => Next c
    | Some pem =>
        match AppendCertsFromPEM NewCertPool pem with
        | (roots, true) =>
            Next (tlsClient (mk_tls_Config (skipFlag c) (Some roots)))
        | (roots, false) =>
            Done (Returned (Some dsp)
                    (Some (Errorf "unable to parse given certificate")))
        end
    end.
Proof.
  intros Hc. unfold cert. destruct (m !! "cert") as [pem|] eqn:Hpem;
    [|reflexivity].
  rewrite (index_present _ _ _ Hpem).
  destruct (AppendCertsFromPEM NewCertPool pem) as [roots [|]]; simpl;
    [|reflexivity].
  by destruct Hc as [->|[cfg ->]].
Qed.

Lemma skipTLSVerify_allocated m dsp c :
  skipTLSVerify m dsp (mk_http_Client None) = Next c → allocated c.
Proof.
  rewrite skipTLSVerify_fresh.
  destruct (m !! "skipTLSVerify") as [v|].
  - destruct (ParseBool v) as [b [e|]]; [discriminate|].
    intros [= <-]. right. by eexists.
  - intros [= <-]. by left.
Qed.

Lemma httpClient_eq m dsp :
  httpClient m dsp =
    c ← skipTLSVerify m dsp (mk_http_Client None); cert m dsp c.
Proof. reflexivity. Qed.

(** Step 4 never panics: it yields a client or returns the instance
    with an error. *)
Lemma httpClient_cases m dsp :
  (∃ c, httpClient m dsp = Next c) ∨
  (∃ e, httpClient m dsp = Done (Returned (Some dsp) (Some e))).
Proof.
  rewrite httpClient_eq.
  destruct (skipTLSVerify m dsp (mk_http_Client None)) as [c|o] eqn:Hs.
  - simpl. rewrite (cert_allocated _ _ _ (skipTLSVerify_allocated _ _ _ Hs)).
    destruct (m !! "cert") as [pem|]; [|eauto].
    destruct (AppendCertsFromPEM NewCertPool pem) as [roots [|]]; eauto.
  - right. rewrite skipTLSVerify_fresh in Hs.
    destruct (m !! "skipTLSVerify") as [v|]; [|discriminate].
    destruct (ParseBool v) as [b [e|]]; [|discriminate].
    inversion Hs. by exists e.
Qed.

End Transport.

(** ** The claims on normalisation *)

(** C3: once the configuration is resolved and no entry of the default
    nameserver list is empty, the list handed to the nameserver-model
    constructor holds, position by position, each entry with exactly
    its one last byte removed, whatever that byte is. *)
Theorem stripped_names_reach_constructor `{Externals}
    (m : gmap string string) (metadata : RawMessage) (dsp : powerdnsProvider _) :
  resolve m metadata = Next dsp →
  Forall (λ ns, ns ≠ "") (DefaultNS dsp) →
  ∃ nss,
    Forall2 (λ ns s, ∃ c, ns = s +:+ String c "") (DefaultNS dsp) nss ∧
    newDSP m metadata =
      run (dsp ← wrapNameservers nss dsp;
           c ← httpClient m dsp;
           Next (assemble dsp c)).
Proof.
  intros Hr Hall.
  destruct (toNameservers_nonempty dsp Hall) as (nss & _ & Hrel & Hto).
  exists nss. split; [exact Hrel|].
  rewrite (newDSP_resolved _ _ _ Hr), Hto. reflexivity.
Qed.

Lemma stripped_names_reach_constructor_witness :
  ∃ nss,
    Forall2 (λ ns s, ∃ c, ns = s +:+ String c "") ["ns1.example.com"] nss ∧
    @newDSP Fixture.lib Fixture.config Fixture.doc_no_dot =
      run (dsp ← @wrapNameservers Fixture.lib nss
                   (Fixture.resolved ["ns1.example.com"]);
           c ← httpClient Fixture.config dsp;
           Next (assemble dsp c)).
Proof.
  apply (@stripped_names_reach_constructor Fixture.lib Fixture.config
           Fixture.doc_no_dot
           (Fixture.resolved ["ns1.example.com"])).
  - vm_compute. reflexivity.
  - repeat constructor. discriminate.
Defined.

(** C10: with the configuration resolved, [newDSP] panics on the slice
    expression exactly when the default nameserver list holds an empty
    entry; when every entry is non-empty the call returns. *)
Theorem normalisation_panics_on_empty_entry `{Externals}
    (m : gmap string string) (metadata : RawMessage) (dsp : powerdnsProvider _) :
  resolve m metadata = Next dsp →
  ("" ∈ DefaultNS dsp →
   newDSP m metadata = Panicked "slice bounds out of range [:-1]") ∧
  ("" ∉ DefaultNS dsp → ∃ p e, newDSP m metadata = Returned p e).
Proof.
  intros Hr. rewrite (newDSP_resolved _ _ _ Hr). split.
  - intros Hin. unfold toNameservers.
    by rewrite (stripLoop_empty_entry _ _ Hin).
  - intros Hall%not_elem_of_empty_string.
    destruct (toNameservers_nonempty dsp Hall) as (nss & _ & _ & ->).
    destruct (wrapNameservers_cases nss dsp) as [[dsp' ->]|(p & e & ->)];
      [|by eauto].
    simpl. destruct (httpClient_cases m dsp') as [[c ->]|[e ->]]; simpl.
    + unfold assemble. destruct (pdns_New _ _ c) as [cl e]. eauto.
    + eauto.
Qed.

Lemma normalisation_panics_on_empty_entry_witness :
  @newDSP Fixture.lib Fixture.config Fixture.doc_empty_entry =
    Panicked "slice bounds out of range [:-1]" ∧
  ∃ p e, @newDSP Fixture.lib Fixture.config Fixture.doc_default_ns =
           Returned p e.
Proof.
  split.
  - apply (proj1 (@normalisation_panics_on_empty_entry Fixture.lib
                    Fixture.config Fixture.doc_empty_entry
                    (Fixture.resolved ["ns1.example.com."; ""])
                    ltac:(vm_compute; reflexivity))).
    apply elem_of_cons. right. apply elem_of_cons. by left.
  - apply (proj2 (@normalisation_panics_on_empty_entry Fixture.lib
                    Fixture.config Fixture.doc_default_ns
                    (Fixture.resolved ["ns1.example.com."; "ns2.example.com."])
                    ltac:(vm_compute; reflexivity))).
    intros Hin. repeat (apply elem_of_cons in Hin as [Hin|Hin]; [discriminate|]).
    by apply not_elem_of_nil in Hin.
Defined.

(** ** What a successful call went through *)

Section Success.
Context `{Externals}.
Implicit Types (m : gmap string string) (metadata : RawMessage).
Implicit Types (dsp p : powerdnsProvider _).

Lemma requiredFields_Done m o :
  requiredFields m = Done o → ∃ e, o = Returned None (Some e).
Proof.
  unfold requiredFields. simpl.
  repeat (match goal with |- context [if ?b then _ else _] => destruct b end);
    intros [= <-]; eauto.
Qed.

Lemma loadMetadata_Done metadata dsp o :
  loadMetadata metadata dsp = Done o → ∃ e, o = Returned None (Some e).
Proof.
  unfold loadMetadata.
  destruct (negb _); [|discriminate].
  destruct (json_Unmarshal metadata dsp) as [dsp' [e|]]; [|discriminate].
  intros [= <-]. eauto.
Qed.

Lemma resolve_Done m metadata o :
  resolve m metadata = Done o → ∃ e, o = Returned None (Some e).
Proof.
  unfold resolve. destruct (requiredFields m) as [dsp|o'] eqn:Hreq; simpl.
  - apply loadMetadata_Done.
  - intros [= <-]. by apply (requiredFields_Done m).
Qed.

Lemma stripLoop_cases (defaultNS : list string) :
  (∃ nss, stripLoop defaultNS [] = Next nss ∧ Forall2 stripped defaultNS nss) ∨
  stripLoop defaultNS [] = Done (Panicked "slice bounds out of range [:-1]").
Proof.
  destruct (decide ("" ∈ defaultNS)) as [Hin|Hnot].
  - right. by apply stripLoop_empty_entry.
  - left. apply not_elem_of_empty_string in Hnot.
    destruct (stripLoop_nonempty defaultNS [] Hnot) as (nss & Hl & Hrel).
    by exists nss.
Qed.


End Success.








(** ** The claims on the transport *)

(** C4: with steps 1-3 passed and [skipTLSVerify] present, a value that
    parses as a boolean lets construction go on to the certificate step
    with a transport whose [InsecureSkipVerify] is the parsed value,
    and every client that reaches assembly still carries that value; a
    value that does not parse makes [newDSP] return the parser's
    error. *)
Theorem skipTLSVerify_parsed `{Externals}
    (m : gmap string string) (metadata : RawMessage) (dsp : powerdnsProvider _)
    (v : string) :
  prepare m metadata = Next dsp →
  m !! "skipTLSVerify" = Some v →
  (∀ b, ParseBool v = (b, None) →
     newDSP m metadata =
       run (c ← cert m dsp (tlsClient (mk_tls_Config b None));
            Next (assemble dsp c)) ∧
     ∀ c, httpClient m dsp = Next c →
          ∃ roots, c = tlsClient (mk_tls_Config b roots)) ∧
  (∀ b e, ParseBool v = (b, Some e) →
     newDSP m metadata = Returned (Some dsp) (Some e)).
Proof.
  intros Hp Hv. rewrite (newDSP_prepared _ _ _ Hp), httpClient_eq.
  rewrite skipTLSVerify_fresh, Hv. split.
  - intros b ->. split; [reflexivity|]. simpl.
    rewrite cert_allocated by (right; by eexists).
    destruct (m !! "cert") as [pem|].
    + destruct (AppendCertsFromPEM NewCertPool pem) as [roots [|]];
        [|discriminate].
      intros c [= <-]. by exists (Some roots).
    + intros c [= <-]. by exists None.
  - intros b e ->. reflexivity.
Qed.

Lemma skipTLSVerify_parsed_witness :
  (@newDSP Fixture.lib (<["skipTLSVerify" := "1"]> Fixture.config) "" =
     run (c ← cert (<["skipTLSVerify" := "1"]> Fixture.config)
                (Fixture.resolved [])
                (@tlsClient Fixture.lib (mk_tls_Config true None));
          Next (assemble (Fixture.resolved []) c)) ∧
   ∀ c, httpClient (<["skipTLSVerify" := "1"]> Fixture.config)
          (Fixture.resolved []) = Next c →
        ∃ roots, c = @tlsClient Fixture.lib (mk_tls_Config true roots)) ∧
  @newDSP Fixture.lib (<["skipTLSVerify" := "yes"]> Fixture.config) "" =
    Returned (Some (Fixture.resolved [])) (Some (NumError "ParseBool" "yes")).
Proof.
  split.
  - refine (proj1 (@skipTLSVerify_parsed Fixture.lib
                     (<["skipTLSVerify" := "1"]> Fixture.config) ""
                     (Fixture.resolved []) "1" _ _) true _);
      vm_compute; reflexivity.
  - refine (proj2 (@skipTLSVerify_parsed Fixture.lib
                     (<["skipTLSVerify" := "yes"]> Fixture.config) ""
                     (Fixture.resolved []) "yes" _ _) false _ _);
      vm_compute; reflexivity.
Defined.

(** C5: with steps 1-3 passed, the [skipTLSVerify] step passed and
    [cert] present: when no certificate of the value parses, [newDSP]
    returns the error "unable to parse given certificate"; when one
    does, construction reaches assembly with a transport whose root
    set is exactly the pool built from an empty pool by that value. *)
Theorem cert_parsed `{Externals}
    (m : gmap string string) (metadata : RawMessage) (dsp : powerdnsProvider _)
    (c : http_Client CertPool) (pem : string) :
  prepare m metadata = Next dsp →
  skipTLSVerify m dsp (mk_http_Client None) = Next c →
  m !! "cert" = Some pem →
  (∀ roots, AppendCertsFromPEM NewCertPool pem = (roots, false) →
     newDSP m metadata =
       Returned (Some dsp) (Some (Errorf "unable to parse given certificate"))) ∧
  (∀ roots, AppendCertsFromPEM NewCertPool pem = (roots, true) →
     newDSP m metadata =
       assemble dsp (tlsClient (mk_tls_Config (skipFlag c) (Some roots)))).
Proof.
  intros Hp Hs Hpem. rewrite (newDSP_prepared _ _ _ Hp), httpClient_eq, Hs.
  simpl. rewrite (cert_allocated _ _ _ (skipTLSVerify_allocated _ _ _ Hs)), Hpem.
  split; intros roots ->; reflexivity.
Qed.

Lemma cert_parsed_witness :
  @newDSP Fixture.lib (<["cert" := "garbage"]> Fixture.config) "" =
    Returned (Some (Fixture.resolved []))
             (Some (Errorf "unable to parse given certificate")) ∧
  @newDSP Fixture.lib
     (<["cert" := "-----BEGIN CERTIFICATE-----"]> Fixture.config) "" =
    assemble (Fixture.resolved [])
      (@tlsClient Fixture.lib
         (mk_tls_Config false (Some ["-----BEGIN CERTIFICATE-----"]))).
Proof.
  split.
  - refine (proj1 (@cert_parsed Fixture.lib
                     (<["cert" := "garbage"]> Fixture.config) ""
                     (Fixture.resolved []) (mk_http_Client None) "garbage"
                     _ _ _) [] _);
      vm_compute; reflexivity.
  - refine (proj2 (@cert_parsed Fixture.lib
                     (<["cert" := "-----BEGIN CERTIFICATE-----"]> Fixture.config)
                     "" (Fixture.resolved []) (mk_http_Client None)
                     "-----BEGIN CERTIFICATE-----" _ _ _)
              ["-----BEGIN CERTIFICATE-----"] _);
      vm_compute; reflexivity.
Defined.

(** C7: with steps 1-3 passed, a configuration holding neither
    [skipTLSVerify] nor [cert] hands the remote-API constructor a
    client whose [Transport] is nil; and a client that reaches
    assembly has a transport only if one of the two keys is present. *)
Theorem no_transport_without_tls_keys `{Externals}
    (m : gmap string string) (metadata : RawMessage) (dsp : powerdnsProvider _) :
  prepare m metadata = Next dsp →
  (m !! "skipTLSVerify" = None → m !! "cert" = None →
     newDSP m metadata = assemble dsp (mk_http_Client None)) ∧
  (∀ c, httpClient m dsp = Next c →
     (Transport c = None ↔ m !! "skipTLSVerify" = None ∧ m !! "cert" = None)).
Proof.
  intros Hp. rewrite (newDSP_prepared _ _ _ Hp), httpClient_eq.
  rewrite skipTLSVerify_fresh. split.
  - intros -> Hc. simpl. unfold cert. by rewrite Hc.
  - intros c. destruct (m !! "skipTLSVerify") as [v|].
    + destruct (ParseBool v) as [b [e|]]; [discriminate|]. simpl.
      rewrite cert_allocated by (right; by eexists).
      destruct (m !! "cert") as [pem|].
      * destruct (AppendCertsFromPEM NewCertPool pem) as [roots [|]];
          [|discriminate].
        intros [= <-]. simpl. split; [discriminate | by intros [? _]].
      * intros [= <-]. simpl. split; [discriminate | by intros [? _]].
    + simpl. rewrite cert_allocated by (by left).
      destruct (m !! "cert") as [pem|].
      * destruct (AppendCertsFromPEM NewCertPool pem) as [roots [|]];
          [|discriminate].
        intros [= <-]. simpl. split; [discriminate | by intros [_ ?]].
      * intros [= <-]. simpl. by split.
Qed.

Lemma no_transport_without_tls_keys_witness :
  @newDSP Fixture.lib Fixture.config Fixture.doc_default_ns =
    assemble
      (set_nameservers
         [mk_Nameserver "ns1.example.com"; mk_Nameserver "ns2.example.com"]
         (Fixture.resolved ["ns1.example.com."; "ns2.example.com."]))
      (mk_http_Client None).
Proof.
  refine (proj1 (@no_transport_without_tls_keys Fixture.lib Fixture.config
                   Fixture.doc_default_ns
                   (set_nameservers
                      [mk_Nameserver "ns1.example.com";
                       mk_Nameserver "ns2.example.com"]
                      (Fixture.resolved ["ns1.example.com."; "ns2.example.com."]))
                   _) _ _);
    vm_compute; reflexivity.
Defined.

(** ** Errors that keep the instance *)

(** C8: when remote-API client assembly returns an error, [newDSP]
    returns that error with the non-nil partially built instance; and
    when the nameserver-model constructor fails, [newDSP] returns its
    error with the non-nil partial instance as well. *)
Theorem partial_instance_on_late_error `{Externals}
    (m : gmap string string) (metadata : RawMessage) :
  (∀ dsp c cl e,
     prepare m metadata = Next dsp → httpClient m dsp = Next c →
     pdns_New (APIUrl dsp) (APIKey dsp) c = (cl, Some e) →
     newDSP m metadata = Returned (Some (set_client cl dsp)) (Some e)) ∧
  (∀ dsp nss l e,
     resolve m metadata = Next dsp →
     stripLoop (DefaultNS dsp) [] = Next nss →
     ToNameservers nss = (l, Some e) →
     newDSP m metadata = Returned (Some (set_nameservers l dsp)) (Some e)).
Proof.
  split.
  - intros dsp c cl e Hp Hc Hnew.
    rewrite (newDSP_assembled _ _ _ _ Hp Hc). unfold assemble. by rewrite Hnew.
  - intros dsp nss l e Hr Hloop Hto.
    rewrite (newDSP_resolved _ _ _ Hr). unfold toNameservers.
    rewrite Hloop. simpl. unfold wrapNameservers. by rewrite Hto.
Qed.

Lemma partial_instance_on_late_error_witness :
  @newDSP Fixture.lib (<["apiUrl" := "pdns.example"]> Fixture.config) "" =
    Returned
      (Some (set_client None (set_APIUrl "pdns.example" (Fixture.resolved []))))
      (Some (LibError "pdns" "unsupported protocol scheme")) ∧
  @newDSP Fixture.lib Fixture.config Fixture.doc_two_dots =
    Returned
      (Some (set_nameservers [] (Fixture.resolved ["ns1.example.com.."])))
      (Some (LibError "models"
               "provider code leaves trailing dot on nameserver")).
Proof.
  split.
  - refine (proj1 (@partial_instance_on_late_error Fixture.lib
                     (<["apiUrl" := "pdns.example"]> Fixture.config) "")
              (set_APIUrl "pdns.example" (Fixture.resolved []))
              (mk_http_Client None) None
              (LibError "pdns" "unsupported protocol scheme") _ _ _);
      vm_compute; reflexivity.
  - refine (proj2 (@partial_instance_on_late_error Fixture.lib
                     Fixture.config Fixture.doc_two_dots)
              (Fixture.resolved ["ns1.example.com.."]) ["ns1.example.com."] []
              (LibError "models"
                 "provider code leaves trailing dot on nameserver") _ _ _);
      vm_compute; reflexivity.
Defined.

(** ** Step 2: what the metadata overlay can reach *)

Section Overlay.
Context `{Externals}.
Implicit Types (m : gmap string string) (metadata : RawMessage).
Implicit Types (dsp : powerdnsProvider _) (st : decodeState).

Lemma store_member_unexported key v st :
  match store_member key v st with
  | inl (dsp', _) => unexported_kept st.1 dsp'
  | inr st' => unexported_kept st.1 st'.1
  end.
Proof.
  unfold store_member, unexported_kept.
  destruct (field_for_key key) as [[]|];
    try (destruct v, st as [dsp [e|]]; simpl; by auto).
  - destruct v; simpl; try (destruct st as [dsp [e|]]; simpl; by auto).
    destruct (store_elems key elems st.2). simpl. auto.
  - destruct (ZoneKind_UnmarshalJSON v (ZoneKind_ st.1)) as [k [e|]];
      simpl; auto.
Qed.

Lemma store_members_unexported members st :
  match store_members members st with
  | inl (dsp', _) => unexported_kept st.1 dsp'
  | inr st' => unexported_kept st.1 st'.1
  end.
Proof.
  revert st. induction members as [|[key v] rest IH]; intros st; simpl.
  - by split.
  - pose proof (store_member_unexported key v st) as Hm.
    destruct (store_member key v st) as [[dsp' e]|st1]; [exact Hm|].
    specialize (IH st1). destruct Hm as [Hc Hn].
    destruct (store_members rest st1) as [[dsp' e]|st2];
      destruct IH as [Hc' Hn']; split; congruence.
Qed.

Lemma json_Unmarshal_unexported metadata dsp :
  unexported_kept dsp (json_Unmarshal metadata dsp).1.
Proof.
  unfold json_Unmarshal.
  destruct (json_scan metadata) as [e|v]; [by split|].
  destruct v; try by split.
  pose proof (store_members_unexported members (dsp, None)) as Hm.
  by destruct (store_members members (dsp, None)) as [[dsp' e]|st].
Qed.

(** A document that fails to decode ends the call with nil and the
    decoder's error. *)
Lemma newDSP_malformed_metadata m metadata dsp0 dsp' e :
  requiredFields m = Next dsp0 →
  metadata ≠ "" →
  json_Unmarshal metadata dsp0 = (dsp', Some e) →
  newDSP m metadata = Returned None (Some e).
Proof.
  intros Hreq Hne Hun. apply newDSP_stopped_resolving.
  unfold resolve. rewrite Hreq. simpl. unfold loadMetadata.
  destruct metadata; [done|]. simpl. by rewrite Hun.
Qed.

Lemma store_elems_strings key (l : list string) saved :
  store_elems key (JString <$> l) saved = (l, saved).
Proof.
  induction l as [|s l IH]; [reflexivity|].
  cbn [fmap list_fmap store_elems]. change (list_fmap _ _ JString l)
    with (JString <$> l).
  by rewrite IH.
Qed.

(** A document whose only member is [default_ns], an array of strings,
    sets the default nameserver list to those strings, in order. *)
Lemma resolve_default_ns m metadata dsp0 (l : list string) :
  requiredFields m = Next dsp0 →
  metadata ≠ "" →
  json_scan metadata = inr (JObject [("default_ns", JArray (JString <$> l))]) →
  resolve m metadata = Next (set_DefaultNS l dsp0).
Proof.
  intros Hreq Hne Hscan.
  unfold resolve. rewrite Hreq. simpl. unfold loadMetadata.
  destruct metadata as [|a rest]; [done|].
  cbn [String.length Nat.eqb negb].
  unfold json_Unmarshal. rewrite Hscan.
  cbn [store_members]. unfold store_member.
  change (field_for_key "default_ns") with (Some F_DefaultNS).
  unfold store_strings. cbn [snd]. rewrite store_elems_strings. reflexivity.
Qed.

(** Such a document with an empty string among its entries makes the
    call panic. *)
Lemma newDSP_empty_default_ns_panics m metadata dsp0 (l : list string) :
  requiredFields m = Next dsp0 →
  metadata ≠ "" →
  json_scan metadata = inr (JObject [("default_ns", JArray (JString <$> l))]) →
  "" ∈ l →
  newDSP m metadata = Panicked "slice bounds out of range [:-1]".
Proof.
  intros Hreq Hne Hscan Hin.
  rewrite (newDSP_resolved _ _ _ (resolve_default_ns _ _ _ _ Hreq Hne Hscan)).
  unfold toNameservers. simpl DefaultNS.
  by rewrite (stripLoop_empty_entry _ _ Hin).
Qed.

End Overlay.

(** The end-to-end scenario: two fully qualified default nameservers,
    no TLS key. *)
Example end_to_end :
  @newDSP Fixture.lib Fixture.config Fixture.doc_default_ns =
    Returned
      (Some (@mk_powerdnsProvider Fixture.lib
               (Some ("https://pdns.example/api", "k", mk_http_Client None))
               "k" "https://pdns.example/api" "localhost"
               ["ns1.example.com."; "ns2.example.com."] false 0 ""
               [mk_Nameserver "ns1.example.com";
                mk_Nameserver "ns2.example.com"]))
      None.
Proof. vm_compute. reflexivity. Qed.

(** C6: the overlay is not confined to the four tagged fields.  A
    metadata document with the member [APIKey] replaces the API key
    that step 1 validated, with any string and the empty one too, and
    steps 1-2 end with that value in the instance. *)
Theorem overlay_overrides_validated_key `{Externals}
    (m : gmap string string) (metadata : RawMessage)
    (dsp0 : powerdnsProvider _) (v : string) :
  requiredFields m = Next dsp0 →
  metadata ≠ "" →
  json_scan metadata = inr (JObject [("APIKey", JString v)]) →
  resolve m metadata = Next (set_APIKey v dsp0) ∧
  APIKey (set_APIKey v dsp0) = v.
Proof.
  intros Hreq Hne Hscan. split; [|reflexivity].
  unfold resolve. rewrite Hreq. simpl. unfold loadMetadata.
  destruct metadata as [|a rest]; [done|].
  cbn [String.length Nat.eqb negb].
  unfold json_Unmarshal. rewrite Hscan. reflexivity.
Qed.

Lemma overlay_overrides_validated_key_witness :
  index Fixture.config "apiKey" = "k" ∧
  @resolve Fixture.lib Fixture.config Fixture.doc_api_key =
    Next (set_APIKey "" (Fixture.resolved [])) ∧
  ∃ p, @newDSP Fixture.lib Fixture.config Fixture.doc_api_key =
         Returned (Some p) None ∧ APIKey p = "".
Proof.
  split; [reflexivity|]. split.
  - refine (proj1 (@overlay_overrides_validated_key Fixture.lib Fixture.config
                     Fixture.doc_api_key (Fixture.resolved []) "" _ _ _)).
    + vm_compute. reflexivity.
    + discriminate.
    + vm_compute. reflexivity.
  - eexists. split; [vm_compute; reflexivity | reflexivity].
Defined.

(** ** The capability declaration *)

Section Declaration.
Context `{Externals} {RecordConfig : Type}.
Context (AuditRecords : list RecordConfig → list error).
Implicit Types (st : process RecordConfig) (cs : list call).

Lemma init_registers st st' :
  init AuditRecords st = Some st' →
  features_var st' = features_var st ∧
  registry st' !! "POWERDNS" =
    Some (mk_Registration (mk_DspFuncs newDSP AuditRecords)
            (features_var st) (Some "@jpbede")).
Proof.
  unfold init, RegisterDomainServiceProviderType, RegisterMaintainer.
  destruct (registry st !! "POWERDNS") as [r|] eqn:Hr; [discriminate|].
  simpl. intros [= <-]. simpl. split; [reflexivity|].
  rewrite lookup_alter_eq, lookup_insert_eq. reflexivity.
Qed.

Lemma exec_keeps c st st' :
  declaration_kept st → exec AuditRecords c st = Some st' →
  declaration_kept st'.
Proof.
  intros [Hf Hr]. destruct c as [|m metadata]; simpl.
  - intros (Hf' & Hreg)%init_registers. split; [congruence|].
    intros r. rewrite Hreg. intros [= <-]. simpl. exact Hf.
  - destruct (newDSP m metadata); [|discriminate].
    intros [= <-]. by split.
Qed.

Lemma execs_keeps cs st st' :
  declaration_kept st → execs AuditRecords cs st = Some st' →
  declaration_kept st'.
Proof.
  revert st. induction cs as [|c cs IH]; intros st Hk; simpl.
  - by intros [= <-].
  - destruct (exec AuditRecords c st) as [st1|] eqn:Hc; [|discriminate].
    simpl. apply IH. by eapply exec_keeps.
Qed.

End Declaration.

(** C9: the declaration maps [CanConcur] to [Cannot]; [init] registers
    it under "POWERDNS"; and after any sequence of the operations of
    this file the package variable is still the declaration as
    written and the entry under "POWERDNS" still carries it. *)
Theorem CanConcur_declared_Cannot `{Externals} {RecordConfig : Type}
    (AuditRecords : list RecordConfig → list error)
    (cs : list call) (st : process RecordConfig) :
  execs AuditRecords cs loaded = Some st →
  features !! CanConcur = Some (Cannot []) ∧
  (∃ st1 r, init AuditRecords loaded = Some st1 ∧
            registry st1 !! "POWERDNS" = Some r ∧
            capabilities r !! CanConcur = Some (Cannot [])) ∧
  features_var st !! CanConcur = Some (Cannot []) ∧
  (∀ r, registry st !! "POWERDNS" = Some r →
        capabilities r !! CanConcur = Some (Cannot [])).
Proof.
  intros Hrun.
  assert (Hcc : features !! CanConcur = Some (Cannot [])) by (vm_compute; reflexivity).
  split; [exact Hcc|]. split.
  - destruct (init AuditRecords loaded) as [st1|] eqn:Hinit.
    + destruct (init_registers _ _ _ Hinit) as [_ Hreg].
      eexists _, _. split; [reflexivity|]. split; [exact Hreg|]. exact Hcc.
    + unfold init, RegisterDomainServiceProviderType in Hinit. simpl in Hinit.
      rewrite lookup_empty in Hinit. discriminate.
  - assert (Hk : declaration_kept st).
    { eapply execs_keeps; [|exact Hrun]. split; [reflexivity|].
      intros r. simpl. by rewrite lookup_empty. }
    destruct Hk as [Hf Hr]. split.
    + by rewrite Hf.
    + intros r Hreg. by rewrite (Hr r Hreg).
Qed.

Lemma CanConcur_declared_Cannot_witness :
  features_var Fixture.registered !! CanConcur = Some (Cannot []) ∧
  (∀ r, registry Fixture.registered !! "POWERDNS" = Some r →
        capabilities r !! CanConcur = Some (Cannot [])).
Proof.
  refine (proj2 (proj2 (@CanConcur_declared_Cannot Fixture.lib unit
                          Fixture.audit
                          [CallInit;
                           CallNewDSP Fixture.config Fixture.doc_default_ns;
                           CallNewDSP ∅ ""]
                          Fixture.registered _))).
  reflexivity.
Defined.

(** * Further properties of the constructor *)

Section Paths.
Context `{Externals}.
Implicit Types (m : gmap string string) (metadata : RawMessage).
Implicit Types (dsp p : powerdnsProvider _).

Lemma requiredFields_Next m dsp :
  requiredFields m = Next dsp →
  dsp = configured m ∧
  index m "apiKey" ≠ "" ∧ index m "apiUrl" ≠ "" ∧ index m "serverName" ≠ "".
Proof.
  unfold requiredFields. simpl.
  destruct (String.eqb_spec (index m "apiKey") "") as [|Hk]; [discriminate|].
  destruct (String.eqb_spec (index m "apiUrl") "") as [|Hu]; [discriminate|].
  destruct (String.eqb_spec (index m "serverName") "") as [|Hs]; [discriminate|].
  intros [= <-]. by repeat split.
Qed.

Lemma requiredFields_present m :
  ¬ missing m "apiKey" → ¬ missing m "apiUrl" → ¬ missing m "serverName" →
  requiredFields m = Next (configured m).
Proof.
  rewrite <- !index_empty_iff. intros Hk Hu Hs.
  unfold requiredFields. simpl.
  by rewrite (eqb_empty_false _ Hk), (eqb_empty_false _ Hu),
    (eqb_empty_false _ Hs).
Qed.

Lemma loadMetadata_unexported metadata dsp dsp' :
  loadMetadata metadata dsp = Next dsp' → unexported_kept dsp dsp'.
Proof.
  unfold loadMetadata. destruct (negb _).
  - pose proof (json_Unmarshal_unexported metadata dsp) as Hk.
    destruct (json_Unmarshal metadata dsp) as [d [e|]]; [discriminate|].
    by intros [= <-].
  - intros [= <-]. by split.
Qed.

(** Steps 1-2 leave the instance without client and nameservers. *)
Lemma resolve_unexported m metadata dsp :
  resolve m metadata = Next dsp → client dsp = None ∧ nameservers dsp = [].
Proof.
  unfold resolve. destruct (requiredFields m) as [dsp0|o] eqn:Hreq;
    [|discriminate].
  apply requiredFields_Next in Hreq as [-> _]. simpl.
  intros [Hc Hn]%loadMetadata_unexported. by rewrite Hc, Hn.
Qed.

Lemma toNameservers_client dsp dsp' :
  toNameservers dsp = Next dsp' → client dsp' = client dsp.
Proof.
  unfold toNameservers. destruct (stripLoop (DefaultNS dsp) []) as [nss|o];
    [|discriminate].
  simpl. by intros (l & _ & ->)%wrapNameservers_Next.
Qed.

(** The four ways a call ends once the configuration is resolved. *)
Lemma newDSP_resolved_cases m metadata dsp :
  resolve m metadata = Next dsp →
  newDSP m metadata = Panicked "slice bounds out of range [:-1]" ∨
  (∃ nss l e, stripLoop (DefaultNS dsp) [] = Next nss ∧
              ToNameservers nss = (l, Some e) ∧
              newDSP m metadata =
                Returned (Some (set_nameservers l dsp)) (Some e)) ∨
  (∃ dsp' e, prepare m metadata = Next dsp' ∧
             newDSP m metadata = Returned (Some dsp') (Some e)) ∨
  (∃ dsp' c, prepare m metadata = Next dsp' ∧ httpClient m dsp' = Next c ∧
             newDSP m metadata = assemble dsp' c).
Proof.
  intros Hr. rewrite (newDSP_resolved _ _ _ Hr).
  rewrite (prepare_resolved _ _ _ Hr). unfold toNameservers.
  destruct (stripLoop_cases (DefaultNS dsp)) as [(nss & -> & _) | ->];
    [|by left].
  right. simpl. unfold wrapNameservers.
  destruct (ToNameservers nss) as [l [e|]] eqn:Hto.
  - left. by exists nss, l, e.
  - right. simpl.
    destruct (httpClient_cases m (set_nameservers l dsp)) as [[c Hc]|[e Hc]];
      rewrite Hc; simpl.
    + right. by exists (set_nameservers l dsp), c.
    + left. by exists (set_nameservers l dsp), e.
Qed.

End Paths.

(** X1: a nil provider always comes with an error, and that error was
    raised by the required-field checks or by the metadata decoder; in
    particular [newDSP] never returns the pair (nil, nil). *)
Theorem newDSP_nil_provider `{Externals}
    (m : gmap string string) (metadata : RawMessage) (e : option error) :
  newDSP m metadata = Returned None e →
  ∃ err, e = Some err ∧ resolve m metadata = Done (Returned None (Some err)).
Proof.
  intros Hnew. destruct (resolve m metadata) as [dsp|o] eqn:Hr.
  - destruct (newDSP_resolved_cases _ _ _ Hr)
      as [Hp|[(nss & l & e' & _ & _ & Hn)|[(d & e' & _ & Hn)|(d & c & _ & _ & Hn)]]];
      rewrite Hnew in *; try discriminate.
    unfold assemble in Hn. destruct (pdns_New _ _ c). discriminate.
  - rewrite (newDSP_stopped_resolving _ _ _ Hr) in Hnew. subst o.
    destruct (resolve_Done _ _ _ Hr) as [err Ho]. inversion Ho; subst. by exists err.
Qed.

Lemma newDSP_nil_provider_witness :
  ∃ err, Some (Errorf "PowerDNS API URL is required") = Some err ∧
         @resolve Fixture.lib (<["apiKey" := "k"]> ∅) "" =
           Done (Returned None (Some err)).
Proof.
  refine (@newDSP_nil_provider Fixture.lib (<["apiKey" := "k"]> ∅) ""
            (Some (Errorf "PowerDNS API URL is required")) _).
  vm_compute. reflexivity.
Defined.

(** X2: with the three required keys present and no metadata, the
    call never returns nil: whatever it returns carries the instance
    that holds exactly the three configured values, no default
    nameservers and an empty nameserver list, whatever the TLS keys
    say. *)
Theorem newDSP_without_metadata `{Externals} (m : gmap string string)
    (p : option (powerdnsProvider _)) (e : option error) :
  ¬ missing m "apiKey" → ¬ missing m "apiUrl" → ¬ missing m "serverName" →
  newDSP m "" = Returned p e →
  ∃ cl, p = Some (set_client cl (configured m)).
Proof.
  intros Hk Hu Hs.
  assert (Hr : resolve m "" = Next (configured m)).
  { unfold resolve. by rewrite (requiredFields_present _ Hk Hu Hs). }
  rewrite (newDSP_resolved _ _ _ Hr).
  change (toNameservers (configured m)) with (Next (configured m)
    : step (powerdnsProvider _)).
  simpl. destruct (httpClient_cases m (configured m)) as [[c ->]|[e' ->]]; simpl.
  - unfold assemble. destruct (pdns_New _ _ c) as [cl e'].
    intros [= <- _]. by exists cl.
  - intros [= <- _]. by exists None.
Qed.

Lemma newDSP_without_metadata_witness :
  ∃ cl, Some (Fixture.resolved []) =
        Some (set_client cl
                (configured (<["skipTLSVerify" := "maybe"]> Fixture.config))).
Proof.
  refine (@newDSP_without_metadata Fixture.lib
            (<["skipTLSVerify" := "maybe"]> Fixture.config)
            (Some (Fixture.resolved []))
            (Some (NumError "ParseBool" "maybe")) _ _ _ _);
    try (intros [Hk|Hk]; vm_compute in Hk; discriminate).
  vm_compute. reflexivity.
Defined.

(** ** What the overlay leaves alone *)

Section Credentials.
Context `{Externals}.
Implicit Types (m : gmap string string) (metadata : RawMessage).
Implicit Types (dsp : powerdnsProvider _) (st : decodeState).

Lemma store_member_credentials key v st :
  field_for_key key ∉ credential_fields →
  match store_member key v st with
  | inl (dsp', _) =>
      (APIKey dsp', APIUrl dsp', ServerName dsp') =
      (APIKey st.1, APIUrl st.1, ServerName st.1)
  | inr st' =>
      (APIKey st'.1, APIUrl st'.1, ServerName st'.1) =
      (APIKey st.1, APIUrl st.1, ServerName st.1)
  end.
Proof.
  intros Hsel. unfold store_member.
  destruct (field_for_key key) as [[]|];
    try (exfalso; apply Hsel; unfold credential_fields;
         rewrite !elem_of_cons; by auto);
    try (destruct v, st as [dsp [e|]]; simpl; reflexivity).
  - destruct v; simpl; try (destruct st as [dsp [e|]]; simpl; reflexivity).
    by destruct (store_elems key elems st.2).
  - by destruct (ZoneKind_UnmarshalJSON v (ZoneKind_ st.1)) as [k [e|]].
Qed.

Lemma store_members_credentials members st :
  Forall (λ kv, field_for_key kv.1 ∉ credential_fields) members →
  match store_members members st with
  | inl (dsp', _) =>
      (APIKey dsp', APIUrl dsp', ServerName dsp') =
      (APIKey st.1, APIUrl st.1, ServerName st.1)
  | inr st' =>
      (APIKey st'.1, APIUrl st'.1, ServerName st'.1) =
      (APIKey st.1, APIUrl st.1, ServerName st.1)
  end.
Proof.
  intros Hall. revert st.
  induction Hall as [|[key v] rest Hsel _ IH]; intros st; simpl; [reflexivity|].
  pose proof (store_member_credentials key v st Hsel) as Hm.
  destruct (store_member key v st) as [[dsp' e]|st1]; [exact Hm|].
  specialize (IH st1).
  destruct (store_members rest st1) as [[dsp' e]|st2]; congruence.
Qed.

End Credentials.

(** X3: when no member of the metadata document selects [APIKey],
    [APIUrl] or [ServerName], the overlay leaves the three validated
    values as step 1 read them, so the resolved instance carries the
    configuration's own non-empty credentials. *)
Theorem overlay_keeps_credentials `{Externals}
    (m : gmap string string) (metadata : RawMessage)
    (members : list (string * json_value)) (dsp : powerdnsProvider _) :
  json_scan metadata = inr (JObject members) →
  Forall (λ kv, field_for_key kv.1 ∉ credential_fields) members →
  resolve m metadata = Next dsp →
  (APIKey dsp = index m "apiKey" ∧ APIUrl dsp = index m "apiUrl" ∧
   ServerName dsp = index m "serverName") ∧
  APIKey dsp ≠ "" ∧ APIUrl dsp ≠ "" ∧ ServerName dsp ≠ "".
Proof.
  intros Hscan Hall. unfold resolve.
  destruct (requiredFields m) as [dsp0|o] eqn:Hreq; [|discriminate].
  apply requiredFields_Next in Hreq as (-> & Hk & Hu & Hs). simpl.
  assert (Hsame : (APIKey dsp, APIUrl dsp, ServerName dsp) =
                  (index m "apiKey", index m "apiUrl", index m "serverName") →
          (APIKey dsp = index m "apiKey" ∧ APIUrl dsp = index m "apiUrl" ∧
           ServerName dsp = index m "serverName") ∧
          APIKey dsp ≠ "" ∧ APIUrl dsp ≠ "" ∧ ServerName dsp ≠ "").
  { intros [= -> -> ->]. by repeat split. }
  unfold loadMetadata. destruct (negb _).
  - unfold json_Unmarshal. rewrite Hscan.
    pose proof (store_members_credentials members (configured m, None) Hall)
      as Hm.
    destruct (store_members members (configured m, None)) as [[d e]|[d [e|]]];
      try discriminate.
    intros [= <-]. by apply Hsame.
  - intros [= <-]. by apply Hsame.
Qed.

Lemma overlay_keeps_credentials_witness :
  (APIKey (Fixture.resolved ["ns1.example.com."; "ns2.example.com."]) = "k" ∧
   APIUrl (Fixture.resolved ["ns1.example.com."; "ns2.example.com."]) =
     "https://pdns.example/api" ∧
   ServerName (Fixture.resolved ["ns1.example.com."; "ns2.example.com."]) =
     "localhost") ∧
  APIKey (Fixture.resolved ["ns1.example.com."; "ns2.example.com."]) ≠ "" ∧
  APIUrl (Fixture.resolved ["ns1.example.com."; "ns2.example.com."]) ≠ "" ∧
  ServerName (Fixture.resolved ["ns1.example.com."; "ns2.example.com."]) ≠ "".
Proof.
  refine (@overlay_keeps_credentials Fixture.lib Fixture.config
            Fixture.doc_default_ns
            [("default_ns",
              JArray [JString "ns1.example.com."; JString "ns2.example.com."])]
            (Fixture.resolved ["ns1.example.com."; "ns2.example.com."]) _ _ _).
  - vm_compute. reflexivity.
  - constructor; [|constructor]. unfold credential_fields.
    rewrite !elem_of_cons. intros [Hf|[Hf|[Hf|Hf]]];
      [vm_compute in Hf; discriminate .. | by apply not_elem_of_nil in Hf].
  - vm_compute. reflexivity.
Defined.

(** ** The transport in closed form *)

Lemma existsb_eqb_elem_of (v : string) (l : list string) :
  existsb (String.eqb v) l = true ↔ v ∈ l.
Proof.
  rewrite existsb_exists. split.
  - intros (x & Hin & ->%String.eqb_eq). by apply list_elem_of_In.
  - intros Hin. exists v. split; [by apply list_elem_of_In|].
    apply String.eqb_refl.
Qed.

Lemma existsb_eqb_not_elem_of (v : string) (l : list string) :
  existsb (String.eqb v) l = false ↔ v ∉ l.
Proof.
  rewrite <- existsb_eqb_elem_of. by destruct (existsb _ l).
Qed.

Lemma ParseBool_spec (v : string) :
  ((v ∈ true_spellings) ∧ ParseBool v = (true, None)) ∨
  ((v ∉ true_spellings) ∧ (v ∈ false_spellings) ∧
   ParseBool v = (false, None)) ∨
  ((v ∉ true_spellings) ∧ (v ∉ false_spellings) ∧
   ParseBool v = (false, Some (NumError "ParseBool" v))).
Proof.
  unfold ParseBool.
  change ["1"; "t"; "T"; "TRUE"; "true"; "True"] with true_spellings.
  change ["0"; "f"; "F"; "FALSE"; "false"; "False"] with false_spellings.
  destruct (existsb (String.eqb v) true_spellings) eqn:Ht.
  - left. by apply existsb_eqb_elem_of in Ht.
  - apply existsb_eqb_not_elem_of in Ht. right.
    destruct (existsb (String.eqb v) false_spellings) eqn:Hf.
    + left. by apply existsb_eqb_elem_of in Hf.
    + right. by apply existsb_eqb_not_elem_of in Hf.
Qed.

Section ClosedForm.
Context `{Externals}.
Implicit Types (m : gmap string string) (dsp : powerdnsProvider _).
Implicit Types (c : http_Client CertPool).

(** The client that reaches assembly, read off the two keys. *)
Lemma httpClient_Next m dsp c :
  httpClient m dsp = Next c →
  skipFlag c = match m !! "skipTLSVerify" with
               | Some v => (ParseBool v).1
               | None => false
               end ∧
  rootCAs c = match m !! "cert" with
              | Some pem => Some (AppendCertsFromPEM NewCertPool pem).1
              | None => None
              end ∧
  match m !! "skipTLSVerify" with
  | Some v => (ParseBool v).2 = None
  | None => True
  end.
Proof.
  rewrite httpClient_eq, skipTLSVerify_fresh.
  destruct (m !! "skipTLSVerify") as [v|].
  - destruct (ParseBool v) as [b [e|]]; [discriminate|]. simpl.
    rewrite cert_allocated by (right; by eexists).
    destruct (m !! "cert") as [pem|].
    + destruct (AppendCertsFromPEM NewCertPool pem) as [roots [|]];
        [|discriminate].
      by intros [= <-].
    + by intros [= <-].
  - simpl. rewrite cert_allocated by (by left).
    destruct (m !! "cert") as [pem|].
    + destruct (AppendCertsFromPEM NewCertPool pem) as [roots [|]];
        [|discriminate].
      by intros [= <-].
    + by intros [= <-].
Qed.

End ClosedForm.

(** X4: certificate verification is switched off only on request: the
    client handed to the remote-API constructor has
    [InsecureSkipVerify] set exactly when [skipTLSVerify] is present
    with one of the spellings 1, t, T, TRUE, true, True. *)
Theorem verification_skipped_only_on_request `{Externals}
    (m : gmap string string) (metadata : RawMessage) (dsp : powerdnsProvider _)
    (c : http_Client CertPool) :
  prepare m metadata = Next dsp →
  httpClient m dsp = Next c →
  newDSP m metadata = assemble dsp c ∧
  (skipFlag c = true ↔
   ∃ v, m !! "skipTLSVerify" = Some v ∧ v ∈ true_spellings).
Proof.
  intros Hp Hc. split; [by apply newDSP_assembled|].
  destruct (httpClient_Next _ _ _ Hc) as (-> & _ & _).
  destruct (m !! "skipTLSVerify") as [v|].
  - destruct (ParseBool_spec v) as [[Ht ->]|[(Ht & _ & ->)|(Ht & _ & ->)]];
      simpl; split; try discriminate; try by eauto.
    + intros (v' & [= <-] & Ht'). done.
    + intros (v' & [= <-] & Ht'). done.
  - split; [discriminate | by intros (v & ? & _)].
Qed.

Lemma verification_skipped_only_on_request_witness :
  @newDSP Fixture.lib (<["skipTLSVerify" := "T"]> Fixture.config) "" =
    assemble (Fixture.resolved [])
      (@tlsClient Fixture.lib (mk_tls_Config true None)) ∧
  (skipFlag (@tlsClient Fixture.lib (mk_tls_Config true None)) = true ↔
   ∃ v, <["skipTLSVerify" := "T"]> Fixture.config !! "skipTLSVerify" = Some v ∧
        v ∈ true_spellings).
Proof.
  refine (@verification_skipped_only_on_request Fixture.lib
            (<["skipTLSVerify" := "T"]> Fixture.config) ""
            (Fixture.resolved [])
            (@tlsClient Fixture.lib (mk_tls_Config true None)) _ _);
    vm_compute; reflexivity.
Defined.

(** X5: the host's root certificates are replaced exactly when [cert]
    is present: the client handed to the remote-API constructor has a
    nil root set without the key, also when [skipTLSVerify] allocated
    the transport, and with the key it has the pool built from the
    key's value alone. *)
Theorem roots_replaced_only_by_cert `{Externals}
    (m : gmap string string) (metadata : RawMessage) (dsp : powerdnsProvider _)
    (c : http_Client CertPool) :
  prepare m metadata = Next dsp →
  httpClient m dsp = Next c →
  newDSP m metadata = assemble dsp c ∧
  rootCAs c = match m !! "cert" with
              | Some pem => Some (AppendCertsFromPEM NewCertPool pem).1
              | None => None
              end.
Proof.
  intros Hp Hc. split; [by apply newDSP_assembled|].
  by destruct (httpClient_Next _ _ _ Hc) as (_ & -> & _).
Qed.

Lemma roots_replaced_only_by_cert_witness :
  @newDSP Fixture.lib (<["skipTLSVerify" := "0"]> Fixture.config) "" =
    assemble (Fixture.resolved [])
      (@tlsClient Fixture.lib (mk_tls_Config false None)) ∧
  rootCAs (@tlsClient Fixture.lib (mk_tls_Config false None)) =
    match <["skipTLSVerify" := "0"]> Fixture.config !! "cert" with
    | Some pem => Some (@AppendCertsFromPEM Fixture.lib NewCertPool pem).1
    | None => None
    end.
Proof.
  refine (@roots_replaced_only_by_cert Fixture.lib
            (<["skipTLSVerify" := "0"]> Fixture.config) ""
            (Fixture.resolved [])
            (@tlsClient Fixture.lib (mk_tls_Config false None)) _ _);
    vm_compute; reflexivity.
Defined.

(** X6: a [skipTLSVerify] value outside the twelve accepted spellings,
    the empty string included, is not read as absent or as false: the
    call returns the instance with the parser's syntax error naming
    the value. *)
Theorem skipTLSVerify_unknown_spelling `{Externals}
    (m : gmap string string) (metadata : RawMessage) (dsp : powerdnsProvider _)
    (v : string) :
  prepare m metadata = Next dsp →
  m !! "skipTLSVerify" = Some v →
  v ∉ true_spellings → v ∉ false_spellings →
  newDSP m metadata = Returned (Some dsp) (Some (NumError "ParseBool" v)).
Proof.
  intros Hp Hv Ht Hf.
  rewrite (newDSP_prepared _ _ _ Hp), httpClient_eq, skipTLSVerify_fresh, Hv.
  by destruct (ParseBool_spec v) as [[? _]|[(_ & ? & _)|(_ & _ & ->)]].
Qed.

Lemma skipTLSVerify_unknown_spelling_witness :
  @newDSP Fixture.lib (<["skipTLSVerify" := ""]> Fixture.config) "" =
    Returned (Some (Fixture.resolved [])) (Some (NumError "ParseBool" "")).
Proof.
  refine (@skipTLSVerify_unknown_spelling Fixture.lib
            (<["skipTLSVerify" := ""]> Fixture.config) ""
            (Fixture.resolved []) "" _ _ _ _).
  - vm_compute. reflexivity.
  - vm_compute. reflexivity.
  - unfold true_spellings. rewrite !elem_of_cons.
    intros Hin. repeat (destruct Hin as [Hin|Hin]; [discriminate|]).
    by apply not_elem_of_nil in Hin.
  - unfold false_spellings. rewrite !elem_of_cons.
    intros Hin. repeat (destruct Hin as [Hin|Hin]; [discriminate|]).
    by apply not_elem_of_nil in Hin.
Defined.

(** ** Fully qualified entries *)

Lemma substring_prefix (s t : string) :
  String.substring 0 (String.length s) (s +:+ t) = s.
Proof.
  induction s as [|a s IH]; simpl.
  - by destruct t.
  - by rewrite IH.
Qed.

Lemma length_fqdn (name : string) :
  String.length (fqdn name) = S (String.length name).
Proof.
  unfold fqdn. induction name as [|a name IH]; simpl; [reflexivity|].
  by rewrite IH.
Qed.

Lemma slice_to_last_fqdn `{Externals} (name : string) :
  slice_to_last (fqdn name) = Next name.
Proof.
  unfold slice_to_last. rewrite length_fqdn.
  destruct (Z.ltb_spec (Z.of_nat (S (String.length name)) - 1) 0) as [Hlt|_];
    [lia|].
  replace (Z.to_nat (Z.of_nat (S (String.length name)) - 1))
    with (String.length name) by lia.
  unfold fqdn. by rewrite substring_prefix.
Qed.

Lemma stripLoop_fqdn `{Externals} (names acc : list string) :
  stripLoop (fqdn <$> names) acc = Next (acc ++ names).
Proof.
  revert acc. induction names as [|name names IH]; intros acc.
  - by rewrite app_nil_r.
  - cbn [fmap list_fmap stripLoop]. rewrite slice_to_last_fqdn. simpl.
    change (list_fmap _ _ fqdn names) with (fqdn <$> names).
    by rewrite IH, <- app_assoc.
Qed.

(** X7: when every default nameserver is a name followed by one dot,
    the nameserver-model constructor receives exactly those names, in
    order, and the call cannot panic in the loop. *)
Theorem fqdn_entries_give_their_names `{Externals}
    (m : gmap string string) (metadata : RawMessage) (dsp : powerdnsProvider _)
    (names : list string) :
  resolve m metadata = Next dsp →
  DefaultNS dsp = fqdn <$> names →
  newDSP m metadata =
    run (dsp ← wrapNameservers names dsp;
         c ← httpClient m dsp;
         Next (assemble dsp c)).
Proof.
  intros Hr Hns. rewrite (newDSP_resolved _ _ _ Hr).
  unfold toNameservers. by rewrite Hns, stripLoop_fqdn.
Qed.

Lemma fqdn_entries_give_their_names_witness :
  @newDSP Fixture.lib Fixture.config Fixture.doc_default_ns =
    run (dsp ← wrapNameservers ["ns1.example.com"; "ns2.example.com"]
                 (Fixture.resolved ["ns1.example.com."; "ns2.example.com."]);
         c ← httpClient Fixture.config dsp;
         Next (assemble dsp c)).
Proof.
  refine (@fqdn_entries_give_their_names Fixture.lib Fixture.config
            Fixture.doc_default_ns
            (Fixture.resolved ["ns1.example.com."; "ns2.example.com."])
            ["ns1.example.com"; "ns2.example.com"] _ _);
    vm_compute; reflexivity.
Defined.

(** ** The keys that matter *)

Section Keys.
Context `{Externals}.
Implicit Types (m : gmap string string) (dsp : powerdnsProvider _).

Lemma agree_lookup m m' k :
  agree_on_config_keys m m' → k ∈ config_keys → m !! k = m' !! k.
Proof. intros Ha. apply Ha. Qed.

Lemma agree_index m m' k :
  agree_on_config_keys m m' → k ∈ config_keys → index m k = index m' k.
Proof. intros Ha Hk. unfold index. by rewrite (Ha k Hk). Qed.

Lemma config_keys_elem :
  "apiKey" ∈ config_keys ∧ "apiUrl" ∈ config_keys ∧
  "serverName" ∈ config_keys ∧ "skipTLSVerify" ∈ config_keys ∧
  "cert" ∈ config_keys.
Proof. unfold config_keys. rewrite !elem_of_cons. by repeat split; auto 10. Qed.

Lemma agree_requiredFields m m' :
  agree_on_config_keys m m' → requiredFields m = requiredFields m'.
Proof.
  intros Ha. destruct config_keys_elem as (Hk & Hu & Hs & _).
  unfold requiredFields. simpl.
  by rewrite (agree_index _ _ _ Ha Hk), (agree_index _ _ _ Ha Hu),
    (agree_index _ _ _ Ha Hs).
Qed.

Lemma agree_httpClient m m' dsp :
  agree_on_config_keys m m' → httpClient m dsp = httpClient m' dsp.
Proof.
  intros Ha. destruct config_keys_elem as (_ & _ & _ & Hv & Hc).
  rewrite !httpClient_eq.
  assert (Hskip : skipTLSVerify m dsp (mk_http_Client None) =
                  skipTLSVerify m' dsp (mk_http_Client None)).
  { unfold skipTLSVerify.
    by rewrite (agree_lookup _ _ _ Ha Hv), (agree_index _ _ _ Ha Hv). }
  rewrite Hskip.
  destruct (skipTLSVerify m' dsp (mk_http_Client None)) as [c|o];
    [|reflexivity].
  simpl. unfold cert.
  by rewrite (agree_lookup _ _ _ Ha Hc), (agree_index _ _ _ Ha Hc).
Qed.

End Keys.

(** X8: [newDSP] looks at five keys of the configuration map and no
    other: two maps that agree on apiKey, apiUrl, serverName,
    skipTLSVerify and cert give the same result for the same metadata. *)
Theorem newDSP_reads_config_keys `{Externals}
    (m m' : gmap string string) (metadata : RawMessage) :
  agree_on_config_keys m m' →
  newDSP m metadata = newDSP m' metadata.
Proof.
  intros Ha. unfold newDSP. rewrite (agree_requiredFields _ _ Ha).
  destruct (requiredFields m') as [dsp0|o]; [|reflexivity]. simpl.
  destruct (loadMetadata metadata dsp0) as [dsp1|o]; [|reflexivity]. simpl.
  destruct (toNameservers dsp1) as [dsp2|o]; [|reflexivity]. simpl.
  by rewrite (agree_httpClient _ _ _ Ha).
Qed.

Lemma newDSP_reads_config_keys_witness :
  @newDSP Fixture.lib Fixture.config Fixture.doc_default_ns =
  @newDSP Fixture.lib (<["timeout" := "30"]> Fixture.config)
    Fixture.doc_default_ns.
Proof.
  refine (@newDSP_reads_config_keys Fixture.lib Fixture.config
            (<["timeout" := "30"]> Fixture.config) Fixture.doc_default_ns _).
  intros k Hk. rewrite lookup_insert_ne; [reflexivity|].
  intros <-. unfold config_keys in Hk. rewrite !elem_of_cons in Hk.
  repeat (destruct Hk as [Hk|Hk]; [discriminate|]).
  by apply not_elem_of_nil in Hk.
Defined.

(** X9: the API client of a returned instance is set by the last step
    only.  An instance that comes without an error, or that carries a
    client, passed steps 1-4, and its client and the returned error are
    what the remote-API constructor gave for the instance's own URL and
    key and the HTTP client of step 4; an instance returned by an
    earlier step has a nil client. *)
Theorem client_set_only_by_assembly `{Externals}
    (m : gmap string string) (metadata : RawMessage)
    (p : powerdnsProvider _) (e : option error) :
  newDSP m metadata = Returned (Some p) e →
  e = None ∨ client p ≠ None →
  ∃ dsp c,
    prepare m metadata = Next dsp ∧ httpClient m dsp = Next c ∧
    pdns_New (APIUrl dsp) (APIKey dsp) c = (client p, e) ∧
    p = set_client (client p) dsp.
Proof.
  intros Hnew Hor. destruct (resolve m metadata) as [dsp|o] eqn:Hr.
  2:{ rewrite (newDSP_stopped_resolving _ _ _ Hr) in Hnew. subst o.
      destruct (resolve_Done _ _ _ Hr) as [err Ho]. discriminate. }
  destruct (resolve_unexported _ _ _ Hr) as [Hcl _].
  destruct (newDSP_resolved_cases _ _ _ Hr)
    as [Hp|[(nss & l & e' & _ & _ & Hn)|[(d & e' & Hd & Hn)|(d & c & Hd & Hc & Hn)]]];
    rewrite Hnew in *; try discriminate.
  - inversion Hn; subst. simpl in Hor. by destruct Hor.
  - inversion Hn; subst.
    rewrite (prepare_resolved _ _ _ Hr) in Hd.
    rewrite (toNameservers_client _ _ Hd), Hcl in Hor. by destruct Hor.
  - exists d, c. split; [exact Hd|]. split; [exact Hc|].
    unfold assemble in Hn. destruct (pdns_New _ _ c) as [cl e'].
    inversion Hn; subst. simpl. by split.
Qed.

Lemma client_set_only_by_assembly_witness :
  ∃ dsp c,
    @prepare Fixture.lib Fixture.config "" = Next dsp ∧
    httpClient Fixture.config dsp = Next c ∧
    pdns_New (APIUrl dsp) (APIKey dsp) c =
      (client (set_client
                 (Some ("https://pdns.example/api", "k", mk_http_Client None)
                  : option (@pdns_Client Fixture.lib))
                 (Fixture.resolved [])), None) ∧
    set_client
      (Some ("https://pdns.example/api", "k", mk_http_Client None)
       : option (@pdns_Client Fixture.lib))
      (Fixture.resolved []) =
    set_client
      (client (set_client
                 (Some ("https://pdns.example/api", "k", mk_http_Client None)
                  : option (@pdns_Client Fixture.lib))
                 (Fixture.resolved []))) dsp.
Proof.
  refine (@client_set_only_by_assembly Fixture.lib Fixture.config ""
            (set_client
               (Some ("https://pdns.example/api", "k", mk_http_Client None)
                : option (@pdns_Client Fixture.lib))
               (Fixture.resolved [])) None _ _).
  - vm_compute. reflexivity.
  - by left.
Defined.

(** X10: the type assertion on [client.Transport] and the dereference
    of its TLS configuration (lines 107 and 124) never panic: whenever
    step 4 reaches one of them the transport was allocated just
    before, so the step ends with a client or with a returned error. *)
Theorem transport_access_never_panics `{Externals}
    (m : gmap string string) (dsp : powerdnsProvider _) :
  (∃ c, httpClient m dsp = Next c ∧ allocated c) ∨
  (∃ e, httpClient m dsp = Done (Returned (Some dsp) (Some e))).
Proof.
  destruct (httpClient_cases m dsp) as [[c Hc]|[e Hc]]; [left | by eauto].
  exists c. split; [exact Hc|].
  rewrite httpClient_eq in Hc.
  destruct (skipTLSVerify m dsp (mk_http_Client None)) as [c1|o] eqn:Hs;
    [|discriminate].
  simpl in Hc.
  rewrite (cert_allocated _ _ _ (skipTLSVerify_allocated _ _ _ Hs)) in Hc.
  destruct (m !! "cert") as [pem|].
  - destruct (AppendCertsFromPEM NewCertPool pem) as [roots [|]];
      [|discriminate].
    inversion Hc. right. by eexists.
  - inversion Hc; subst. by eapply skipTLSVerify_allocated.
Qed.

(** ** Documents the decoder ignores, and documents it refuses *)

Section Decoding.
Context `{Externals}.
Implicit Types (m : gmap string string) (metadata : RawMessage).
Implicit Types (dsp : powerdnsProvider _) (st : decodeState).

Lemma store_members_unknown members st :
  Forall (λ kv, field_for_key kv.1 = None) members →
  store_members members st = inr st.
Proof.
  intros Hall. induction Hall as [|[key v] rest Hsel _ IH]; [reflexivity|].
  simpl in *. unfold store_member. by rewrite Hsel.
Qed.

Lemma store_elems_saved key elems e :
  (store_elems key elems (Some e)).2 = Some e.
Proof.
  induction elems as [|v rest IH]; [reflexivity|].
  cbn [store_elems].
  assert (Hrest : ∀ s, (let '(l, saved) := store_elems key rest (Some e) in
                        (s :: l, saved)).2 = Some e).
  { intros s. by destruct (store_elems key rest (Some e)). }
  destruct v; apply Hrest.
Qed.

Lemma store_elems_rejected key elems saved :
  forallb (λ e, match e with
                | JString _ | JNull => true
                | _ => false
                end) elems = false →
  is_Some (store_elems key elems saved).2.
Proof.
  revert saved. induction elems as [|v rest IH]; intros saved; [discriminate|].
  cbn [forallb store_elems]. intros Hbad.
  assert (Hkeep : ∀ s e, is_Some (let '(l, saved) :=
                                    store_elems key rest (Some e) in
                                  (s :: l, saved)).2).
  { intros s e. pose proof (store_elems_saved key rest e) as Hs.
    destruct (store_elems key rest (Some e)). simpl in *. by rewrite Hs. }
  assert (Hgo : ∀ s, forallb (λ e, match e with
                                   | JString _ | JNull => true
                                   | _ => false
                                   end) rest = false →
                     is_Some (let '(l, saved) := store_elems key rest saved in
                              (s :: l, saved)).2).
  { intros s Hr. specialize (IH saved Hr).
    by destruct (store_elems key rest saved). }
  destruct v; simpl in Hbad;
    try (by apply Hgo); destruct saved; by apply Hkeep.
Qed.

(** Once a type error is saved, the walk ends with an error. *)
Lemma store_member_saved key v st :
  is_Some st.2 → decode_failed (store_member key v st).
Proof.
  intros [e He]. destruct st as [dsp saved]. simpl in He. subst saved.
  unfold store_member.
  destruct (field_for_key key) as [[]|]; simpl;
    try (destruct v; simpl; by eauto).
  - destruct v; simpl; try by eauto.
    pose proof (store_elems_saved key elems e) as Hs.
    destruct (store_elems key elems (Some e)). simpl in *. by rewrite Hs.
  - destruct (ZoneKind_UnmarshalJSON v (ZoneKind_ dsp)) as [k [e'|]];
      simpl; by eauto.
Qed.

Lemma store_members_saved members st :
  is_Some st.2 → decode_failed (store_members members st).
Proof.
  revert st. induction members as [|[key v] rest IH]; intros st Hs; simpl.
  - exact Hs.
  - pose proof (store_member_saved key v st Hs) as Hm.
    destruct (store_member key v st) as [stop|st1]; [done|].
    by apply IH.
Qed.

Lemma store_member_rejected key v f st :
  field_for_key key = Some f → kind_accepted f v = false →
  decode_failed (store_member key v st).
Proof.
  intros Hsel Hbad.
  destruct (st.2) as [e|] eqn:Hsaved.
  { apply store_member_saved. by rewrite Hsaved. }
  destruct st as [dsp saved]. simpl in Hsaved. subst saved.
  unfold store_member. rewrite Hsel.
  destruct f; simpl in Hbad; try discriminate;
    try (destruct v; simpl in *; try discriminate; by eauto).
  destruct v; simpl in *; try discriminate; try by eauto.
  pose proof (store_elems_rejected key elems None Hbad) as Hs.
  by destruct (store_elems key elems None).
Qed.

Lemma store_members_rejected members st key v f :
  (key, v) ∈ members →
  field_for_key key = Some f → kind_accepted f v = false →
  decode_failed (store_members members st).
Proof.
  intros Hin Hsel Hbad. revert st.
  induction members as [|[key' v'] rest IH]; intros st.
  - by apply not_elem_of_nil in Hin.
  - simpl. apply elem_of_cons in Hin as [[= <- <-]|Hin].
    + pose proof (store_member_rejected key v f st Hsel Hbad) as Hm.
      destruct (store_member key v st) as [stop|st1]; [done|].
      by apply store_members_saved.
    + destruct (store_member key' v' st) as [stop|st1]; [done|].
      by apply IH.
Qed.

End Decoding.

(** X12: a metadata document none of whose members selects a field of
    the structure is accepted and changes nothing: the call gives the
    result it gives without metadata. *)
Theorem unknown_members_are_ignored `{Externals}
    (m : gmap string string) (metadata : RawMessage)
    (members : list (string * json_value)) :
  json_scan metadata = inr (JObject members) →
  Forall (λ kv, field_for_key kv.1 = None) members →
  newDSP m metadata = newDSP m "".
Proof.
  intros Hscan Hall. unfold newDSP.
  destruct (requiredFields m) as [dsp0|o]; [|reflexivity]. simpl.
  assert (Hload : loadMetadata metadata dsp0 = Next dsp0).
  { unfold loadMetadata. destruct (negb _); [|reflexivity].
    unfold json_Unmarshal.
    by rewrite Hscan, (store_members_unknown _ _ Hall). }
  by rewrite Hload.
Qed.

Lemma unknown_members_are_ignored_witness :
  @newDSP Documents.lib Fixture.config Documents.doc_unknown_member =
  @newDSP Documents.lib Fixture.config "".
Proof.
  refine (@unknown_members_are_ignored Documents.lib Fixture.config
            Documents.doc_unknown_member
            [("default_nameservers", JArray [JString "ns1.example.com."])]
            _ _).
  - vm_compute. reflexivity.
  - constructor; [|constructor]. vm_compute. reflexivity.
Defined.

(** X13: a member that selects a string, boolean or string-list field
    with a value of another JSON kind makes construction fail: the
    call returns nil and an error, whatever else the document
    holds. *)
Theorem wrong_kind_is_refused `{Externals}
    (m : gmap string string) (metadata : RawMessage)
    (members : list (string * json_value))
    (key : string) (v : json_value) (f : field) :
  ¬ missing m "apiKey" → ¬ missing m "apiUrl" → ¬ missing m "serverName" →
  metadata ≠ "" →
  json_scan metadata = inr (JObject members) →
  (key, v) ∈ members →
  field_for_key key = Some f →
  kind_accepted f v = false →
  ∃ e, newDSP m metadata = Returned None (Some e).
Proof.
  intros Hk Hu Hs Hne Hscan Hin Hsel Hbad.
  pose proof (store_members_rejected members (configured m, None)
                key v f Hin Hsel Hbad) as Hfail.
  assert (∃ d e, json_Unmarshal metadata (configured m) = (d, Some e))
    as (d & e & Hun).
  { unfold json_Unmarshal. rewrite Hscan.
    destruct (store_members members (configured m, None))
      as [[d e]|[d [e|]]]; simpl in Hfail; eauto.
    by destruct Hfail. }
  exists e.
  by apply (newDSP_malformed_metadata m metadata (configured m) d e
              (requiredFields_present _ Hk Hu Hs) Hne).
Qed.

Lemma wrong_kind_is_refused_witness :
  ∃ e, @newDSP Documents.lib Fixture.config Documents.doc_wrong_kind =
         Returned None (Some e).
Proof.
  refine (@wrong_kind_is_refused Documents.lib Fixture.config
            Documents.doc_wrong_kind
            [("default_ns", JString "ns1.example.com.")]
            "default_ns" (JString "ns1.example.com.") F_DefaultNS
            _ _ _ _ _ _ _ _).
  - intros [Hk|Hk]; vm_compute in Hk; discriminate.
  - intros [Hk|Hk]; vm_compute in Hk; discriminate.
  - intros [Hk|Hk]; vm_compute in Hk; discriminate.
  - discriminate.
  - vm_compute. reflexivity.
  - apply elem_of_cons. by left.
  - vm_compute. reflexivity.
  - reflexivity.
Defined.
